(** * Futuristic-HUD: the [SystemMonitor] core

    A shallow embedding of [src/SystemMonitor.h] and [src/SystemMonitor.cpp]
    as built for Linux (neither [_WIN32] nor [__APPLE__] defined), with the
    Windows variants of the two functions that differ in what they report
    kept in [Module Win32].

    What the operating system, libcurl and nlohmann::json hand back to the
    program is an explicit input of the operation that asks for it:
    the text of [/proc/stat], the [sysinfo] block, the lines [fgets] reads
    from [ps], the return value of [kill], the transfer result and the
    parsed body.  The methods of the class are state transformers over the
    record [SystemMonitor]. *)

From Stdlib Require Import ZArith Bool Ascii String Lia.
From Stdlib Require Import Floats.SpecFloat Numbers.DecimalString.
From Stdlib Require Numbers.DecimalZ.
From stdpp Require Import base list option.

Local Open Scope Z_scope.

(* ------------------------------------------------------------------ *)
(** ** Machine arithmetic *)

(** [unsigned long long]: 64 bits, wrapping. *)
Module U64.
Definition modulus : Z := 2 ^ 64.
Definition wrap (z : Z) : Z := z mod modulus.
Definition add (a b : Z) : Z := wrap (a + b).
Definition sub (a b : Z) : Z := wrap (a - b).
End U64.

(** [int]: 32 bits, two's complement. *)
Module I32.
Definition min_int : Z := - 2 ^ 31.
Definition max_int : Z := 2 ^ 31 - 1.
Definition in_range (z : Z) : bool := (min_int <=? z) && (z <=? max_int).
Definition wrap (z : Z) : Z := (z + 2 ^ 31) mod 2 ^ 32 - 2 ^ 31.
End I32.

(** IEEE 754 numbers, on the Standard Library's [spec_float]:
    [float] is binary32 and [double] is binary64, rounding to nearest even. *)
Module F32.
Definition t : Type := spec_float.
Definition prec : Z := 24.
Definition emax : Z := 128.
Definition zero : t := S754_zero false.
Definition of_Z (z : Z) : t := binary_normalize prec emax z 0 false.
Definition mul : t → t → t := SFmul prec emax.
Definition div : t → t → t := SFdiv prec emax.
Definition sub : t → t → t := SFsub prec emax.
Definition one : t := of_Z 1.
Definition hundred : t := of_Z 100.
End F32.

Module F64.
Definition t : Type := spec_float.
Definition prec : Z := 53.
Definition emax : Z := 1024.
Definition zero : t := S754_zero false.
Definition of_Z (z : Z) : t := binary_normalize prec emax z 0 false.
Definition mul : t → t → t := SFmul prec emax.
Definition div : t → t → t := SFdiv prec emax.
Definition sub : t → t → t := SFsub prec emax.

(** [static_cast<float>(d)] *)
Definition to_f32 (d : t) : F32.t :=
  match d with
  | S754_finite s m e =>
      binary_normalize F32.prec F32.emax (cond_Zopp s (Z.pos m)) e s
  | _ => d
  end.

(** [static_cast<int>(d)]: truncation toward zero.  Outside the range of
    [int] the conversion is undefined in C++; the model returns what the
    x86-64 conversion instruction leaves there, [INT_MIN]. *)
Definition to_int (d : t) : Z :=
  match d with
  | S754_zero _ => 0
  | S754_finite s m e =>
      let q := Z.quot (Z.pos m * 2 ^ Z.max e 0) (2 ^ Z.max (- e) 0) in
      let v := cond_Zopp s q in
      if I32.in_range v then v else I32.min_int
  | _ => I32.min_int
  end.

(** [1024.0 * 1024.0 * 1024.0] *)
Definition GiB : t := of_Z (1024 * 1024 * 1024).
End F64.

(* ------------------------------------------------------------------ *)
(** ** [std::string] and the character functions the code calls *)

Local Open Scope string_scope.

Module Str.

Definition code (c : ascii) : N := N_of_ascii c.

(** [std::tolower] on an [unsigned char], in the "C" locale (the program
    never calls [setlocale]). *)
Definition is_upper (c : ascii) : bool :=
  ((65 <=? code c) && (code c <=? 90))%N.

Definition tolower (c : ascii) : ascii :=
  if is_upper c then ascii_of_N (code c + 32) else c.

(** [std::isspace] in the "C" locale: space, [\t \n \v \f \r]. *)
Definition isspace (c : ascii) : bool :=
  ((code c =? 32) || ((9 <=? code c) && (code c <=? 13)))%N.

Definition is_digit (c : ascii) : bool :=
  ((48 <=? code c) && (code c <=? 57))%N.

Definition digit_value (c : ascii) : Z := Z.of_N (code c) - 48.

Fixpoint map (f : ascii → ascii) (s : string) : string :=
  match s with
  | EmptyString => EmptyString
  | String c s' => String (f c) (map f s')
  end.

Fixpoint forallb (p : ascii → bool) (s : string) : bool :=
  match s with
  | EmptyString => true
  | String c s' => p c && forallb p s'
  end.

Definition empty (s : string) : bool :=
  match s with EmptyString => true | _ => false end.

(** [s.compare(0, p.size(), p) == 0] *)
Fixpoint starts_with (p s : string) : bool :=
  match p, s with
  | EmptyString, _ => true
  | String a p', String b s' => Ascii.eqb a b && starts_with p' s'
  | String _ _, EmptyString => false
  end.

(** [hay.find(needle)]: the first position at which [needle] occurs,
    [None] for [std::string::npos]. *)
Fixpoint find (hay needle : string) : option nat :=
  if starts_with needle hay then Some 0%nat
  else match hay with
       | EmptyString => None
       | String _ hay' => S <$> find hay' needle
       end.

(** [std::to_string(int)]: what [%d] prints. *)
Definition to_string (z : Z) : string := NilEmpty.string_of_int (Z.to_int z).

(** Erase the leading characters that satisfy [p]
    ([s.erase(s.begin(), std::find_if(s.begin(), s.end(), not p))]). *)
Fixpoint drop_while (p : ascii → bool) (s : string) : string :=
  match s with
  | EmptyString => EmptyString
  | String c s' => if p c then drop_while p s' else s
  end.

(** The longest prefix whose characters satisfy [p], and the rest. *)
Fixpoint span (p : ascii → bool) (s : string) : string * string :=
  match s with
  | EmptyString => (EmptyString, EmptyString)
  | String c s' =>
      if p c then let '(a, b) := span p s' in (String c a, b)
      else (EmptyString, s)
  end.

(** [needle] occurs somewhere in [hay]. *)
Definition Substring (needle hay : string) : Prop :=
  ∃ pre post : string, hay = pre ++ needle ++ post.

End Str.

(** [toLower] of SystemMonitor.cpp: [std::transform] with [std::tolower]. *)
Definition toLower (s : string) : string := Str.map Str.tolower s.

(* ------------------------------------------------------------------ *)
(** ** The data of SystemMonitor.h *)

Record ProcessInfo := { pid : Z; name : string }.

Record HardwareStats := {
  cpuLoadPercent : F32.t;
  ramUsedGB : F32.t;
  ramTotalGB : F32.t }.

Record WeatherInfo := {
  summary : string;
  temperatureC : F64.t;
  windKph : F64.t;
  lastUpdated : Z }.

(** The data members of the class.  The three mutexes carry no data and the
    thread handle is the worker of [Module Worker] below. *)
Record SystemMonitor := {
  m_hwStats : HardwareStats;
  m_cpuHistory : list F32.t;
  m_lastTotalJiffies : Z;
  m_lastIdleJiffies : Z;
  m_weather : option WeatherInfo;
  m_weatherLoading : bool;
  m_weatherThreadStop : bool;
  m_processesCache : list ProcessInfo }.

Definition MaxHistory : nat := 256.

Definition set_hw (hw : HardwareStats) (hist : list F32.t) (m : SystemMonitor)
  : SystemMonitor :=
  {| m_hwStats := hw; m_cpuHistory := hist;
     m_lastTotalJiffies := m_lastTotalJiffies m;
     m_lastIdleJiffies := m_lastIdleJiffies m;
     m_weather := m_weather m;
     m_weatherLoading := m_weatherLoading m;
     m_weatherThreadStop := m_weatherThreadStop m;
     m_processesCache := m_processesCache m |}.

Definition set_jiffies (total idle : Z) (m : SystemMonitor) : SystemMonitor :=
  {| m_hwStats := m_hwStats m; m_cpuHistory := m_cpuHistory m;
     m_lastTotalJiffies := total;
     m_lastIdleJiffies := idle;
     m_weather := m_weather m;
     m_weatherLoading := m_weatherLoading m;
     m_weatherThreadStop := m_weatherThreadStop m;
     m_processesCache := m_processesCache m |}.

Definition set_weather (w : option WeatherInfo) (m : SystemMonitor)
  : SystemMonitor :=
  {| m_hwStats := m_hwStats m; m_cpuHistory := m_cpuHistory m;
     m_lastTotalJiffies := m_lastTotalJiffies m;
     m_lastIdleJiffies := m_lastIdleJiffies m;
     m_weather := w;
     m_weatherLoading := m_weatherLoading m;
     m_weatherThreadStop := m_weatherThreadStop m;
     m_processesCache := m_processesCache m |}.

Definition set_weatherLoading (b : bool) (m : SystemMonitor) : SystemMonitor :=
  {| m_hwStats := m_hwStats m; m_cpuHistory := m_cpuHistory m;
     m_lastTotalJiffies := m_lastTotalJiffies m;
     m_lastIdleJiffies := m_lastIdleJiffies m;
     m_weather := m_weather m;
     m_weatherLoading := b;
     m_weatherThreadStop := m_weatherThreadStop m;
     m_processesCache := m_processesCache m |}.

Definition set_weatherThreadStop (b : bool) (m : SystemMonitor)
  : SystemMonitor :=
  {| m_hwStats := m_hwStats m; m_cpuHistory := m_cpuHistory m;
     m_lastTotalJiffies := m_lastTotalJiffies m;
     m_lastIdleJiffies := m_lastIdleJiffies m;
     m_weather := m_weather m;
     m_weatherLoading := m_weatherLoading m;
     m_weatherThreadStop := b;
     m_processesCache := m_processesCache m |}.

Definition set_processesCache (ps : list ProcessInfo) (m : SystemMonitor)
  : SystemMonitor :=
  {| m_hwStats := m_hwStats m; m_cpuHistory := m_cpuHistory m;
     m_lastTotalJiffies := m_lastTotalJiffies m;
     m_lastIdleJiffies := m_lastIdleJiffies m;
     m_weather := m_weather m;
     m_weatherLoading := m_weatherLoading m;
     m_weatherThreadStop := m_weatherThreadStop m;
     m_processesCache := ps |}.

(** A member function: it returns a value and leaves the object in a new
    state.  A [const] member function is written in the same shape, so that
    "the call changes nothing" is a statement about its second component. *)
Definition Method (A : Type) : Type := SystemMonitor → A * SystemMonitor.

Definition ret {A} (a : A) : Method A := λ m, (a, m).
Definition bind {A B} (c : Method A) (k : A → Method B) : Method B :=
  λ m, let '(a, m') := c m in k a m'.
Definition read {A} (f : SystemMonitor → A) : Method A := λ m, (f m, m).
Definition write (f : SystemMonitor → SystemMonitor) : Method unit :=
  λ m, (tt, f m).
Definition exec {A} (c : Method A) (m : SystemMonitor) : SystemMonitor :=
  snd (c m).
Definition eval {A} (c : Method A) (m : SystemMonitor) : A := fst (c m).

Declare Scope method_scope.
Delimit Scope method_scope with method.
Notation "'do' x <- c ;; k" := (bind c (λ x, k))
  (at level 10, x name, c at level 99, k at level 200) : method_scope.
Notation "'call' c ;; k" := (bind c (λ _, k))
  (at level 10, c at level 99, k at level 200) : method_scope.
Local Open Scope method_scope.

(* ------------------------------------------------------------------ *)
(** ** What the host hands back *)

(** The first line of [/proc/stat] as the stream extraction reads it. *)
Record ProcStat := {
  cpuLabel : string;
  st_user : Z; st_nice : Z; st_system : Z; st_idle : Z;
  st_iowait : Z; st_irq : Z; st_softirq : Z; st_steal : Z }.

(** The fields of [struct sysinfo] that the code reads. *)
Record SysInfo := { totalram : Z; freeram : Z; mem_unit : Z }.

(** One tick of the driver: [None] where the source could not be opened
    ([std::ifstream] in a failed state, [sysinfo] non-zero, [popen] null).
    [ps_buffers] are the buffers that the successive [fgets] calls fill. *)
Record Host := {
  proc_stat : option ProcStat;
  sys_info : option SysInfo;
  ps_buffers : option (list string) }.

(* ------------------------------------------------------------------ *)
(** ** CPU and RAM sampling (Linux) *)

Definition SampleCpuUsage (stat : option ProcStat) : Method F32.t :=
  match stat with
  | None => ret F32.zero
  | Some st =>
      if negb (String.eqb (cpuLabel st) "cpu") then ret F32.zero
      else
        let idleAll := U64.add (st_idle st) (st_iowait st) in
        let nonIdle :=
          U64.add (U64.add (U64.add (U64.add (U64.add
            (st_user st) (st_nice st)) (st_system st)) (st_irq st))
            (st_softirq st)) (st_steal st) in
        let total := U64.add idleAll nonIdle in
        do lastTotal <- read m_lastTotalJiffies ;;
        do lastIdle <- read m_lastIdleJiffies ;;
        let totalDiff := U64.sub total lastTotal in
        let idleDiff := U64.sub idleAll lastIdle in
        call write (set_jiffies total idleAll) ;;
        if (totalDiff =? 0)%Z then ret F32.zero
        else
          ret (F32.div
                 (F32.mul F32.hundred (F32.of_Z (U64.sub totalDiff idleDiff)))
                 (F32.of_Z totalDiff))
  end.

Definition SampleRamUsage (info : option SysInfo) (stats : HardwareStats)
  : HardwareStats :=
  match info with
  | None => stats
  | Some i =>
      let total :=
        F64.div (F64.mul (F64.of_Z (totalram i)) (F64.of_Z (mem_unit i)))
                F64.GiB in
      let free :=
        F64.div (F64.mul (F64.of_Z (freeram i)) (F64.of_Z (mem_unit i)))
                F64.GiB in
      {| cpuLoadPercent := cpuLoadPercent stats;
         ramTotalGB := F64.to_f32 total;
         ramUsedGB := F64.to_f32 (F64.sub total free) |}
  end.

Definition UpdateHardware (h : Host) : Method unit :=
  do cpu <- SampleCpuUsage (proc_stat h) ;;
  let stats :=
    SampleRamUsage (sys_info h)
      {| cpuLoadPercent := cpu; ramUsedGB := F32.zero;
         ramTotalGB := F32.zero |} in
  do hist <- read m_cpuHistory ;;
  let hist :=
    if (MaxHistory <=? length hist)%nat then drop 1 hist else hist in
  write (set_hw stats (hist ++ [cpu])%list).

(* ------------------------------------------------------------------ *)
(** ** Process enumeration (POSIX: the output of [ps -axo pid=,comm=]) *)

Definition newline : ascii := ascii_of_N 10.

Fixpoint decimal_value (acc : Z) (digits : string) : Z :=
  match digits with
  | EmptyString => acc
  | String c ds => decimal_value (10 * acc + Str.digit_value c) ds
  end.

(** [iss >> pid] for an [int]: skip white space, read an optional sign and
    the digits that follow; the extraction fails when there is no digit or
    the number does not fit an [int].  On success the rest of the stream is
    returned. *)
Definition extract_int (s : string) : option (Z * string) :=
  let s := Str.drop_while Str.isspace s in
  let '(negative, s) :=
    match s with
    | String "-"%char r => (true, r)
    | String "+"%char r => (false, r)
    | _ => (false, s)
    end in
  let '(digits, rest) := Str.span Str.is_digit s in
  if Str.empty digits then None
  else
    let v := decimal_value 0 digits in
    let v := if negative then - v else v in
    if I32.in_range v then Some (v, rest) else None.

(** [std::getline(iss, name)]: the characters up to the next newline. *)
Definition getline (rest : string) : string :=
  fst (Str.span (λ c, negb (Ascii.eqb c newline)) rest).

(** The body of the [while (fgets(...))] loop; [None] is [continue]. *)
Definition parse_ps_buffer (buffer : string) : option ProcessInfo :=
  '(pid, rest) ← extract_int buffer;
  let name := getline rest in
  let name := Str.drop_while Str.isspace name in
  let name := if Str.empty name then "unknown" else name in
  Some {| pid := pid; name := name |}.

Definition QueryProcesses (ps : option (list string)) : list ProcessInfo :=
  match ps with
  | None => []
  | Some buffers =>
      fold_left
        (λ procs buffer,
           match parse_ps_buffer buffer with
           | Some p => procs ++ [p]
           | None => procs
           end)%list
        buffers []
  end.

(* ------------------------------------------------------------------ *)
(** ** Construction and the public methods *)

Definition default_stats : HardwareStats :=
  {| cpuLoadPercent := F32.zero; ramUsedGB := F32.zero;
     ramTotalGB := F32.zero |}.

(** The members as their default initialisers leave them. *)
Definition members_default : SystemMonitor :=
  {| m_hwStats := default_stats; m_cpuHistory := [];
     m_lastTotalJiffies := 0; m_lastIdleJiffies := 0;
     m_weather := None; m_weatherLoading := false;
     m_weatherThreadStop := false; m_processesCache := [] |}.

(** [SystemMonitor::SystemMonitor()]: one priming call of [SampleCpuUsage]
    whose value is dropped. *)
Definition construct (stat : option ProcStat) : SystemMonitor :=
  exec (SampleCpuUsage stat) members_default.

Definition Update (h : Host) : Method unit :=
  call UpdateHardware h ;;
  write (set_processesCache (QueryProcesses (ps_buffers h))).

Definition GetHardwareStats : Method HardwareStats := read m_hwStats.

Definition GetCpuHistory : Method (list F32.t) := read m_cpuHistory.

Definition matches (filterLower : string) (p : ProcessInfo) : bool :=
  Str.empty filterLower
  || bool_decide (Str.find (toLower (name p)) filterLower ≠ None)
  || bool_decide (Str.find (Str.to_string (pid p)) filterLower ≠ None).

Definition GetProcesses (filter : string) : Method (list ProcessInfo) :=
  let filterLower := toLower filter in
  do cache <- read m_processesCache ;;
  ret (fold_left
         (λ result p, if matches filterLower p then result ++ [p] else result)%list
         cache []).

Definition GetWeather : Method (option WeatherInfo) := read m_weather.

Definition IsWeatherLoading : Method bool := read m_weatherLoading.

(** [m_weatherLoading.exchange(true)]; the old value decides nothing. *)
Definition RequestWeatherRefresh : Method unit :=
  do old <- read m_weatherLoading ;;
  call write (set_weatherLoading true) ;;
  if negb old then ret tt else ret tt.

(** [kill(pid, SIGTERM)]: its return value and, when that is not 0, the
    text [std::strerror(errno)] gives. *)
Record KillResult := { kill_ret : Z; strerror_errno : string }.

(** [errorMessage] is the caller's string, passed by reference. *)
Definition TerminateProcess (os : KillResult) (pid : Z) (errorMessage : string)
  : Method (bool * string) :=
  if negb (kill_ret os =? 0)%Z
  then ret (false, "kill(SIGTERM) failed: " ++ strerror_errno os)
  else ret (true, errorMessage).

(** The monitor after the driver has made the calls [hs], oldest first. *)
Definition run (hs : list Host) (m : SystemMonitor) : SystemMonitor :=
  fold_left (λ m h, exec (Update h) m) hs m.

(** The value [SampleCpuUsage] returned inside each of those calls. *)
Fixpoint cpu_samples (hs : list Host) (m : SystemMonitor) : list F32.t :=
  match hs with
  | [] => []
  | h :: hs' =>
      eval (SampleCpuUsage (proc_stat h)) m
        :: cpu_samples hs' (exec (Update h) m)
  end.


(* ------------------------------------------------------------------ *)
(** ** Weather *)

(** The part of nlohmann::json that [FetchWeatherBlocking] uses.  A thrown
    exception is [None]. *)
Module Json.

#[local] Unset Elimination Schemes.
Inductive value :=
| Null
| Boolean (b : bool)
| NumberInteger (z : Z)
| NumberUnsigned (z : Z)
| NumberFloat (d : F64.t)
| Text (s : string)
| Array (items : list value)
| Object (members : list (string * value)).
#[local] Set Elimination Schemes.

(** [find(key)] on the members of an object (keys are unique there). *)
Fixpoint find (key : string) (members : list (string * value))
  : option value :=
  match members with
  | [] => None
  | (k, v) :: rest => if String.eqb k key then Some v else find key rest
  end.

(** [j.contains(key)]: false for anything that is not an object. *)
Definition contains (j : value) (key : string) : bool :=
  match j with
  | Object members => bool_decide (find key members ≠ None)
  | _ => false
  end.

(** [j[key]] for a key that [j] contains. *)
Definition at_key (j : value) (key : string) : value :=
  match j with
  | Object members => default Null (find key members)
  | _ => Null
  end.

(** [get<double>()]: numbers only, anything else throws [type_error]. *)
Definition get_double (v : value) : option F64.t :=
  match v with
  | NumberInteger z | NumberUnsigned z => Some (F64.of_Z z)
  | NumberFloat d => Some d
  | _ => None
  end.

(** [get<int>()]: numbers and booleans, converted by [static_cast]. *)
Definition get_int (v : value) : option Z :=
  match v with
  | NumberInteger z | NumberUnsigned z => Some (I32.wrap z)
  | NumberFloat d => Some (F64.to_int d)
  | Boolean b => Some (if b then 1 else 0)
  | _ => None
  end.

(** [j.value(key, default_value)]: throws unless [j] is an object; the
    default when the key is absent, the converted member otherwise. *)
Definition value_or {A} (get : value → option A) (j : value) (key : string)
    (default_value : A) : option A :=
  match j with
  | Object members =>
      match find key members with
      | Some v => get v
      | None => Some default_value
      end
  | _ => None
  end.

End Json.

Definition CURLE_OK : Z := 0.

(** One run of the HTTP transfer, as the code sees it: whether
    [curl_easy_init] gave a handle, the [CURLcode] of [curl_easy_perform],
    what [json::parse(response)] makes of the body ([None]: it throws), and
    the reading of [system_clock::now()]. *)
Record Transfer := {
  curl_handle : bool;
  curl_code : Z;
  response_json : option Json.value;
  clock_now : Z }.

Definition reset_weather : Method unit := write (set_weather None).

(** The [try] block: [None] when an exception leaves it; otherwise what the
    block does to the monitor on its way out. *)
Definition try_block (t : Transfer) : option (Method unit) :=
  j ← response_json t;
  if negb (Json.contains j "current_weather") then Some reset_weather
  else
    let cw := Json.at_key j "current_weather" in
    temperature ← Json.value_or Json.get_double cw "temperature" F64.zero;
    windspeed ← Json.value_or Json.get_double cw "windspeed" F64.zero;
    code ← Json.value_or Json.get_int cw "weathercode" 0;
    let info :=
      {| summary := "Code " ++ Str.to_string code;
         temperatureC := temperature;
         windKph := windspeed;
         lastUpdated := clock_now t |} in
    Some (write (set_weather (Some info))).

Definition FetchWeatherBlocking (t : Transfer) : Method unit :=
  if negb (curl_handle t) then reset_weather
  else if negb (curl_code t =? CURLE_OK)%Z then reset_weather
  else
    match try_block t with
    | Some leave => leave
    | None => reset_weather
    end.

(** ** The worker thread and its callers

    The two flags are [std::atomic<bool>] read and written with the default
    (sequentially consistent) order, so a run of the program is an
    interleaving of the atomic steps below. *)
Module Worker.

(** Where the worker stands in [WeatherWorker]. *)
Inductive pc :=
| AtWhile      (* about to test [m_weatherThreadStop] *)
| AtIf         (* about to test [m_weatherLoading] *)
| Fetching     (* inside [FetchWeatherBlocking] *)
| AtStore      (* about to [m_weatherLoading.store(false)] *)
| Sleeping     (* in [sleep_for] *)
| Exited.

(** [fetches] counts the calls of [FetchWeatherBlocking] begun so far. *)
Record System := {
  monitor : SystemMonitor;
  worker : pc;
  fetches : nat }.

Definition with_monitor (f : SystemMonitor → SystemMonitor) (s : System)
  : System :=
  {| monitor := f (monitor s); worker := worker s; fetches := fetches s |}.

(** The worker's next atomic step; [t] is the transfer it sees if that
    step is the fetch. *)
Definition worker_step (t : Transfer) (s : System) : System :=
  match worker s with
  | AtWhile =>
      if m_weatherThreadStop (monitor s)
      then {| monitor := monitor s; worker := Exited; fetches := fetches s |}
      else {| monitor := monitor s; worker := AtIf; fetches := fetches s |}
  | AtIf =>
      if m_weatherLoading (monitor s)
      then {| monitor := monitor s; worker := Fetching;
              fetches := S (fetches s) |}
      else {| monitor := monitor s; worker := Sleeping;
              fetches := fetches s |}
  | Fetching =>
      {| monitor := exec (FetchWeatherBlocking t) (monitor s);
         worker := AtStore; fetches := fetches s |}
  | AtStore =>
      {| monitor := set_weatherLoading false (monitor s);
         worker := Sleeping; fetches := fetches s |}
  | Sleeping =>
      {| monitor := monitor s; worker := AtWhile; fetches := fetches s |}
  | Exited => s
  end.

Inductive event :=
| Request                       (* a caller: [RequestWeatherRefresh()] *)
| Tick (h : Host)               (* the driver: [Update()] *)
| Step (t : Transfer)           (* the worker's next step *)
| Stop.                         (* the destructor's [store(true)] *)

Definition step (e : event) (s : System) : System :=
  match e with
  | Request => with_monitor (exec RequestWeatherRefresh) s
  | Tick h => with_monitor (exec (Update h)) s
  | Step t => worker_step t s
  | Stop => with_monitor (set_weatherThreadStop true) s
  end.

Definition run (tr : list event) (s : System) : System :=
  fold_left (λ s e, step e s) tr s.

(** The constructor has returned and the thread has just started. *)
Definition start (m : SystemMonitor) : System :=
  {| monitor := m; worker := AtWhile; fetches := 0 |}.

(** A request that found the flag clear and has not been picked up yet. *)
Definition pending (s : System) : nat :=
  match worker s with
  | Fetching | AtStore => 0
  | _ => if m_weatherLoading (monitor s) then 1 else 0
  end.

(** How many [Request]s of the trace found the flag clear, that is, made
    the exchange go from false to true. *)
Fixpoint accepted (tr : list event) (s : System) : nat :=
  match tr with
  | [] => 0
  | e :: tr' =>
      (match e with
       | Request => if m_weatherLoading (monitor s) then 0 else 1
       | _ => 0
       end + accepted tr' (step e s))%nat
  end.

End Worker.

(** ** The lock around the hardware data

    The atomic actions of the locked block of [UpdateHardware] and of the
    two accessors, with [m_hwMutex] as an explicit owner. *)
Module HwLock.

Inductive thread := Driver | Reader.

Inductive action :=
| Lock                          (* [std::lock_guard] constructed *)
| Unlock                        (* ... and destroyed *)
| AssignStats (stats : HardwareStats)
| EraseIfFull                   (* [if (size() >= MaxHistory) erase(begin())] *)
| PushBack (cpu : F32.t)
| CopyStats                     (* [return m_hwStats;] *)
| ReadHistory.                  (* use of the reference [m_cpuHistory] *)

(** The block between the braces in [UpdateHardware]. *)
Definition UpdateHardware_block (stats : HardwareStats) (cpu : F32.t)
  : list action :=
  [Lock; AssignStats stats; EraseIfFull; PushBack cpu; Unlock].

Definition GetHardwareStats_body : list action := [Lock; CopyStats; Unlock].

(** [GetCpuHistory() const { return m_cpuHistory; }] *)
Definition GetCpuHistory_body : list action := [ReadHistory].

Inductive observation :=
| SawStats (stats : HardwareStats)
| SawHistory (hist : list F32.t).

Record State := {
  hwStats : HardwareStats;
  cpuHistory : list F32.t;
  hwMutex : option thread;
  seen : list observation }.

Definition thread_eqb (a b : thread) : bool :=
  match a, b with
  | Driver, Driver | Reader, Reader => true
  | _, _ => false
  end.

(** One action of thread [who]; [None] when the thread cannot take it now
    (the mutex is held, or it unlocks a mutex it does not hold). *)
Definition act (who : thread) (a : action) (σ : State) : option State :=
  match a with
  | Lock =>
      match hwMutex σ with
      | None => Some {| hwStats := hwStats σ; cpuHistory := cpuHistory σ;
                        hwMutex := Some who; seen := seen σ |}
      | Some _ => None
      end
  | Unlock =>
      match hwMutex σ with
      | Some owner =>
          if thread_eqb owner who
          then Some {| hwStats := hwStats σ; cpuHistory := cpuHistory σ;
                       hwMutex := None; seen := seen σ |}
          else None
      | None => None
      end
  | AssignStats stats =>
      Some {| hwStats := stats; cpuHistory := cpuHistory σ;
              hwMutex := hwMutex σ; seen := seen σ |}
  | EraseIfFull =>
      Some {| hwStats := hwStats σ;
              cpuHistory :=
                if (MaxHistory <=? length (cpuHistory σ))%nat
                then drop 1 (cpuHistory σ) else cpuHistory σ;
              hwMutex := hwMutex σ; seen := seen σ |}
  | PushBack cpu =>
      Some {| hwStats := hwStats σ; cpuHistory := (cpuHistory σ ++ [cpu])%list;
              hwMutex := hwMutex σ; seen := seen σ |}
  | CopyStats =>
      Some {| hwStats := hwStats σ; cpuHistory := cpuHistory σ;
              hwMutex := hwMutex σ;
              seen := (seen σ ++ [SawStats (hwStats σ)])%list |}
  | ReadHistory =>
      Some {| hwStats := hwStats σ; cpuHistory := cpuHistory σ;
              hwMutex := hwMutex σ;
              seen := (seen σ ++ [SawHistory (cpuHistory σ)])%list |}
  end.

(** The two threads' remaining actions and the shared state. *)
Record Config := {
  driver_todo : list action;
  reader_todo : list action;
  shared : State }.

(** The scheduler lets [who] take its next action. *)
Definition sched (who : thread) (c : Config) : option Config :=
  match who with
  | Driver =>
      match driver_todo c with
      | [] => None
      | a :: rest =>
          σ ← act Driver a (shared c);
          Some {| driver_todo := rest; reader_todo := reader_todo c;
                  shared := σ |}
      end
  | Reader =>
      match reader_todo c with
      | [] => None
      | a :: rest =>
          σ ← act Reader a (shared c);
          Some {| driver_todo := driver_todo c; reader_todo := rest;
                  shared := σ |}
      end
  end.

Fixpoint schedule (order : list thread) (c : Config) : option Config :=
  match order with
  | [] => Some c
  | who :: order' => c' ← sched who c; schedule order' c'
  end.

Definition initial (stats : HardwareStats) (hist : list F32.t) : State :=
  {| hwStats := stats; cpuHistory := hist; hwMutex := None; seen := [] |}.

End HwLock.

(* ------------------------------------------------------------------ *)
(** ** The Windows variants *)
Module Win32.

(** The CPU sampling members under [_WIN32]. *)
Record CpuTimes := {
  m_lastIdleTime : Z;
  m_lastKernelTime : Z;
  m_lastUserTime : Z }.

(** What [GetSystemTimes] fills in, each [FILETIME] as its 64-bit value;
    [None] when the call fails. *)
Record SystemTimes := { idleTime : Z; kernelTime : Z; userTime : Z }.

Definition SampleCpuUsage (times : option SystemTimes) (c : CpuTimes)
  : F32.t * CpuTimes :=
  match times with
  | None => (F32.zero, c)
  | Some t =>
      let idle := U64.wrap (idleTime t) in
      let kernel := U64.wrap (kernelTime t) in
      let user := U64.wrap (userTime t) in
      let idleDiff := U64.sub idle (m_lastIdleTime c) in
      let kernelDiff := U64.sub kernel (m_lastKernelTime c) in
      let userDiff := U64.sub user (m_lastUserTime c) in
      let total := U64.add kernelDiff userDiff in
      let c' := {| m_lastIdleTime := idle; m_lastKernelTime := kernel;
                   m_lastUserTime := user |} in
      if (total =? 0)%Z then (F32.zero, c')
      else
        (F32.mul F32.hundred
           (F32.sub F32.one (F32.div (F32.of_Z idleDiff) (F32.of_Z total))),
         c')
  end.

Definition members_default : CpuTimes :=
  {| m_lastIdleTime := 0; m_lastKernelTime := 0; m_lastUserTime := 0 |}.

(** [OpenProcess] gave a handle or not, and what [::TerminateProcess]
    returned on it. *)
Record TerminateResult := { hProc : bool; ok : bool }.

Definition TerminateProcess (os : TerminateResult) (pid : Z)
    (errorMessage : string) : Method (bool * string) :=
  if negb (hProc os) then ret (false, "OpenProcess failed.")
  else if negb (ok os) then ret (false, "TerminateProcess failed.")
  else ret (true, errorMessage).

End Win32.


(* ------------------------------------------------------------------ *)
(** ** The write callback given to libcurl *)

(** [CurlWriteCallback]: [contents] is the memory libcurl points at, [userp]
    the string the response is gathered in; the result is the returned count
    and the string after the [append].  [size_t] is 64 bits wide. *)
Definition CurlWriteCallback (contents : string) (size nmemb : Z)
    (userp : string) : Z * string :=
  let total := U64.wrap (size * nmemb) in
  (total, userp ++ String.substring 0 (Z.to_nat total) contents).
(* ------------------------------------------------------------------ *)
(** ** Definitions used to state the properties *)

(** [push_sample] is the locked block of [UpdateHardware] seen on the
    history alone. *)
Definition push_sample (hist : list F32.t) (cpu : F32.t) : list F32.t :=
  (if (MaxHistory <=? length hist)%nat then drop 1 hist else hist) ++ [cpu].

(** The selection as the specification words it: the name contains the
    filter when case is ignored, or the decimal pid contains the filter.

    Case is that of the letters of the alphabet: a capital and a small
    letter make a pair when they stand at the same place in it.  Two
    characters are the same letter when they are equal or make such a pair,
    either way round; two strings are the same when case is ignored if they
    have the same length and, place by place, the same letter. *)
Definition capital_letters : string := "ABCDEFGHIJKLMNOPQRSTUVWXYZ".
Definition small_letters : string := "abcdefghijklmnopqrstuvwxyz".

Definition case_pair (capital small : ascii) : Prop :=
  ∃ i : nat,
    String.get i capital_letters = Some capital
    ∧ String.get i small_letters = Some small.

Definition same_letter (a b : ascii) : Prop :=
  a = b ∨ case_pair a b ∨ case_pair b a.

Inductive same_ignoring_case : string → string → Prop :=
| same_empty : same_ignoring_case "" ""
| same_cons a b s t :
    same_letter a b →
    same_ignoring_case s t →
    same_ignoring_case (String a s) (String b t).

Definition name_contains_ignoring_case (flt : string) (p : ProcessInfo) : Prop :=
  ∃ pre mid post, name p = pre ++ mid ++ post ∧ same_ignoring_case mid flt.

Definition pid_contains (flt : string) (p : ProcessInfo) : Prop :=
  Str.Substring flt (Str.to_string (pid p)).

Definition selected (flt : string) (p : ProcessInfo) : Prop :=
  name_contains_ignoring_case flt p ∨ pid_contains flt p.


(** The cumulative counters [SampleCpuUsage] derives from one reading of
    [/proc/stat], and the load between two readings. *)
Definition idle_jiffies (st : ProcStat) : Z :=
  U64.add (st_idle st) (st_iowait st).

Definition total_jiffies (st : ProcStat) : Z :=
  U64.add (idle_jiffies st)
    (U64.add (U64.add (U64.add (U64.add (U64.add
       (st_user st) (st_nice st)) (st_system st)) (st_irq st))
       (st_softirq st)) (st_steal st)).

Definition load_of (totalDiff idleDiff : Z) : F32.t :=
  if (totalDiff =? 0)%Z then F32.zero
  else F32.div (F32.mul F32.hundred (F32.of_Z (U64.sub totalDiff idleDiff)))
               (F32.of_Z totalDiff).

Definition load_between (previous current : ProcStat) : F32.t :=
  load_of (U64.sub (total_jiffies current) (total_jiffies previous))
          (U64.sub (idle_jiffies current) (idle_jiffies previous)).

(** The loads of a run of readings, each against the one before it. *)
Fixpoint loads_after (previous : ProcStat) (readings : list ProcStat)
  : list F32.t :=
  match readings with
  | [] => []
  | st :: rest => load_between previous st :: loads_after st rest
  end.

(** A reading of [/proc/stat] that the code accepts. *)
Definition readable (st : ProcStat) : Prop := cpuLabel st = "cpu".

(** A tick whose [/proc/stat] reading is [st]. *)
Definition tick_with (st : ProcStat) (info : option SysInfo)
    (ps : option (list string)) : Host :=
  {| proc_stat := Some st; sys_info := info; ps_buffers := ps |}.

(** The ways a weather fetch fails: no handle or a transfer error (network
    error, timeout), a body that is not JSON, a body without the required
    member [current_weather], or a member of the wrong type (the conversion
    throws). *)
Inductive FetchFails (t : Transfer) : Prop :=
| fails_no_handle : curl_handle t = false → FetchFails t
| fails_transfer : curl_code t ≠ CURLE_OK → FetchFails t
| fails_malformed : response_json t = None → FetchFails t
| fails_missing_field j :
    response_json t = Some j →
    Json.contains j "current_weather" = false → FetchFails t
| fails_conversion : try_block t = None → FetchFails t.

(** The body has a [current_weather] object with all three fields. *)
Definition complete_body (t : Transfer) : Prop :=
  ∃ members cw,
    response_json t = Some (Json.Object members)
    ∧ Json.find "current_weather" members = Some (Json.Object cw)
    ∧ Json.find "temperature" cw ≠ None
    ∧ Json.find "windspeed" cw ≠ None
    ∧ Json.find "weathercode" cw ≠ None.

(** A field may be absent; when present it must convert. *)
Definition absent_or_converts {A} (get : Json.value → option A)
    (key : string) (cw : list (string * Json.value)) : Prop :=
  match Json.find key cw with
  | None => True
  | Some v => get v ≠ None
  end.

(** What the code requires of a transfer to store a reading. *)
Definition storable (t : Transfer) : Prop :=
  curl_handle t = true ∧ curl_code t = CURLE_OK
  ∧ ∃ members cw,
      response_json t = Some (Json.Object members)
      ∧ Json.find "current_weather" members = Some (Json.Object cw)
      ∧ absent_or_converts Json.get_double "temperature" cw
      ∧ absent_or_converts Json.get_double "windspeed" cw
      ∧ absent_or_converts Json.get_int "weathercode" cw.

(** A burst of requests around one refresh: [S n0] requests before the
    worker looks, [n1] between its test of the stop flag and its test of the
    loading flag, [n2] while the transfer runs, [n3] between the end of the
    transfer and the clearing of the flag, and then the worker going on for
    [length more] steps with nobody asking. *)
Definition burst (n0 n1 n2 n3 : nat) (t : Transfer) (more : list Transfer)
  : list Worker.event :=
  (repeat Worker.Request (S n0)
   ++ [Worker.Step t]
   ++ repeat Worker.Request n1
   ++ [Worker.Step t]
   ++ repeat Worker.Request n2
   ++ [Worker.Step t]
   ++ repeat Worker.Request n3
   ++ [Worker.Step t]
   ++ map Worker.Step more)%list.

(** ** Inputs and predicates of the statements below *)

Definition reading_20C : WeatherInfo :=
  {| summary := "Code 3"; temperatureC := F64.of_Z 20; windKph := F64.of_Z 7;
     lastUpdated := 1 |}.

Definition timed_out : Transfer :=
  {| curl_handle := true; curl_code := 28; response_json := None;
     clock_now := 2 |}.

(** A body whose [current_weather] object is empty. *)
Definition bare_current_weather : Transfer :=
  {| curl_handle := true; curl_code := 0;
     response_json :=
       Some (Json.Object [("current_weather", Json.Object [])]);
     clock_now := 5 |}.

Definition no_such_process : KillResult :=
  {| kill_ret := -1; strerror_errno := "No such process" |}.

Definition host_without_ps : Host :=
  {| proc_stat := None; sys_info := None; ps_buffers := None |}.

Definition has_name (p : ProcessInfo) : Prop := name p ≠ "".

(** The counters of a machine that has been up for a while. *)
Definition since_boot : ProcStat :=
  {| cpuLabel := "cpu"; st_user := 100; st_nice := 0; st_system := 0;
     st_idle := 300; st_iowait := 0; st_irq := 0; st_softirq := 0;
     st_steal := 0 |}.

Definition a_tick_later : ProcStat :=
  {| cpuLabel := "cpu"; st_user := 150; st_nice := 0; st_system := 0;
     st_idle := 350; st_iowait := 0; st_irq := 0; st_softirq := 0;
     st_steal := 0 |}.

(** While the worker is between picking the flag up and clearing it, the
    flag is set. *)
Definition in_flight_flag (s : Worker.System) : Prop :=
  match Worker.worker s with
  | Worker.Fetching | Worker.AtStore =>
      m_weatherLoading (Worker.monitor s) = true
  | _ => True
  end.

(** The driver through [erase], the reader, then the driver to the end. *)
Definition torn_order : list HwLock.thread :=
  [HwLock.Driver; HwLock.Driver; HwLock.Driver; HwLock.Reader;
   HwLock.Driver; HwLock.Driver].


(* ------------------------------------------------------------------ *)
(** ** Further predicates and inputs *)

(** The next character of the stream, if any, is not a digit. *)
Definition no_digit_next (rest : string) : Prop :=
  match rest with
  | EmptyString => True
  | String c _ => Str.is_digit c = false
  end.

(** A process name as [ps] prints it: not empty, no leading white space and
    no newline inside. *)
Definition printable_name (s : string) : Prop :=
  match s with
  | EmptyString => False
  | String c _ => Str.isspace c = false
  end
  ∧ Str.forallb (λ c, negb (Ascii.eqb c newline)) s = true.

(** The line [ps -axo pid=,comm=] prints for one process: the pid, padded on
    the left, a space, the command and a newline. *)
Definition ps_line (pad : string) (p : ProcessInfo) : string :=
  pad ++ Str.to_string (pid p) ++ " " ++ name p ++ String newline "".

(** A buffer that does not begin, after white space, with a digit or a
    sign: a header, a blank line, the tail of an over-long line. *)
Definition not_a_number (buffer : string) : Prop :=
  match Str.drop_while Str.isspace buffer with
  | EmptyString => True
  | String c _ =>
      Str.is_digit c = false ∧ c ≠ "-"%char ∧ c ≠ "+"%char
  end.

(** A reading of [/proc/stat] that the code rejects: the file did not open,
    or its first word is not [cpu]. *)
Definition unreadable (stat : option ProcStat) : Prop :=
  match stat with
  | None => True
  | Some st => cpuLabel st ≠ "cpu"
  end.

(** How many worker steps and how many requests a trace holds. *)
Fixpoint count_steps (tr : list Worker.event) : nat :=
  match tr with
  | [] => 0
  | Worker.Step _ :: tr' => S (count_steps tr')
  | _ :: tr' => count_steps tr'
  end.

Fixpoint count_requests (tr : list Worker.event) : nat :=
  match tr with
  | [] => 0
  | Worker.Request :: tr' => S (count_requests tr')
  | _ :: tr' => count_requests tr'
  end.

(** With the stop flag set, an upper bound on the worker steps left before
    the thread function returns. *)
Definition steps_to_exit (w : Worker.pc) : nat :=
  match w with
  | Worker.Exited => 0
  | Worker.AtWhile => 1
  | Worker.Sleeping => 2
  | Worker.AtStore => 3
  | Worker.Fetching => 4
  | Worker.AtIf => 5
  end.

(** With the stop flag set, the fetches the worker can still begin: one if
    it stands right before the test of the loading flag, none otherwise. *)
Definition fetch_ahead (w : Worker.pc) : nat :=
  match w with
  | Worker.AtIf => 1
  | _ => 0
  end.

(** A body as the forecast service sends it. *)
Definition clear_sky_body : Transfer :=
  {| curl_handle := true; curl_code := 0;
     response_json :=
       Some (Json.Object
               [ ("latitude", Json.NumberFloat (F64.of_Z 41));
                 ("current_weather",
                  Json.Object
                    [ ("temperature", Json.NumberFloat (F64.of_Z 21));
                      ("windspeed", Json.NumberFloat (F64.of_Z 9));
                      ("weathercode", Json.NumberUnsigned 0) ]) ]);
     clock_now := 1700000000 |}.

(** One delivery of libcurl: the bytes, and the two factors it passes, whose
    product is the number of bytes. *)
Record Delivery := { bytes : string; unit_size : Z; units : Z }.

Definition well_sized (d : Delivery) : Prop :=
  unit_size d * units d = Z.of_nat (String.length (bytes d))
  ∧ Z.of_nat (String.length (bytes d)) < U64.modulus.

(** The response string after the deliveries, oldest first. *)
Definition gather (ds : list Delivery) (response : string) : string :=
  fold_left
    (λ r d, snd (CurlWriteCallback (bytes d) (unit_size d) (units d) r))
    ds response.

Fixpoint concat_bytes (ds : list Delivery) : string :=
  match ds with
  | [] => ""
  | d :: ds' => bytes d ++ concat_bytes ds'
  end.

(** ** Reading the hardware data while [Update()] runs *)



(* ------------------------------------------------------------------ *)
(** * Properties *)

(** ** Which members each method touches *)

Lemma SampleCpuUsage_frame stat m :
  let m' := exec (SampleCpuUsage stat) m in
  m_hwStats m' = m_hwStats m ∧ m_cpuHistory m' = m_cpuHistory m
  ∧ m_weather m' = m_weather m ∧ m_weatherLoading m' = m_weatherLoading m
  ∧ m_weatherThreadStop m' = m_weatherThreadStop m
  ∧ m_processesCache m' = m_processesCache m.
Proof.
  unfold SampleCpuUsage, exec.
  destruct stat as [st|]; [|done].
  destruct (negb _); [done|].
  cbn. by destruct (_ =? 0)%Z.
Qed.

Lemma Update_history h m :
  m_cpuHistory (exec (Update h) m)
  = push_sample (m_cpuHistory m) (eval (SampleCpuUsage (proc_stat h)) m).
Proof.
  pose proof (SampleCpuUsage_frame (proc_stat h) m) as (_ & Hh & _).
  unfold Update, UpdateHardware, exec, eval, bind, read, write in *.
  destruct (SampleCpuUsage (proc_stat h) m) as [cpu m1]; cbn in *.
  by rewrite Hh.
Qed.

Lemma Update_reported h m :
  cpuLoadPercent (m_hwStats (exec (Update h) m))
  = eval (SampleCpuUsage (proc_stat h)) m.
Proof.
  unfold Update, UpdateHardware, exec, eval, bind, read, write.
  destruct (SampleCpuUsage (proc_stat h) m) as [cpu m1]; cbn.
  unfold SampleRamUsage. by destruct (sys_info h).
Qed.

Lemma Update_cache h m :
  m_processesCache (exec (Update h) m) = QueryProcesses (ps_buffers h).
Proof.
  unfold Update, UpdateHardware, exec, bind, read, write.
  by destruct (SampleCpuUsage (proc_stat h) m) as [cpu m1].
Qed.

Lemma Update_weather h m :
  m_weather (exec (Update h) m) = m_weather m
  ∧ m_weatherLoading (exec (Update h) m) = m_weatherLoading m.
Proof.
  pose proof (SampleCpuUsage_frame (proc_stat h) m) as (_ & _ & Hw & Hl & _).
  unfold Update, UpdateHardware, exec, bind, read, write in *.
  by destruct (SampleCpuUsage (proc_stat h) m) as [cpu m1].
Qed.

(** ** The CPU history is a bounded FIFO *)

Lemma push_sample_drop (hist : list F32.t) cpu :
  (length hist ≤ MaxHistory)%nat →
  push_sample hist cpu
  = drop (length hist + 1 - MaxHistory) (hist ++ [cpu]).
Proof.
  intros Hlen. unfold push_sample.
  destruct (Nat.leb_spec MaxHistory (length hist)) as [Hfull|Hroom].
  - replace (length hist + 1 - MaxHistory)%nat with 1%nat by lia.
    rewrite drop_app_le; [done|]. unfold MaxHistory in *. lia.
  - by replace (length hist + 1 - MaxHistory)%nat with 0%nat by lia.
Qed.

Lemma run_cons h hs m : run (h :: hs) m = run hs (exec (Update h) m).
Proof. reflexivity. Qed.

Lemma cpu_samples_cons h hs m :
  cpu_samples (h :: hs) m
  = eval (SampleCpuUsage (proc_stat h)) m
      :: cpu_samples hs (exec (Update h) m).
Proof. reflexivity. Qed.

Lemma run_history hs : ∀ m,
  (length (m_cpuHistory m) ≤ MaxHistory)%nat →
  m_cpuHistory (run hs m)
  = drop (length (m_cpuHistory m ++ cpu_samples hs m) - MaxHistory)
      (m_cpuHistory m ++ cpu_samples hs m).
Proof.
  induction hs as [|h hs IH]; intros m Hlen.
  - change (run [] m) with m. change (cpu_samples [] m) with (@nil F32.t).
    rewrite app_nil_r.
    by replace (length (m_cpuHistory m) - MaxHistory)%nat with 0%nat by lia.
  - rewrite run_cons, cpu_samples_cons.
    set (s := eval (SampleCpuUsage (proc_stat h)) m).
    set (rest := cpu_samples hs (exec (Update h) m)).
    set (k := (length (m_cpuHistory m) + 1 - MaxHistory)%nat).
    assert (Hstep : m_cpuHistory (exec (Update h) m)
                    = drop k (m_cpuHistory m ++ [s])).
    { by rewrite Update_history, push_sample_drop. }
    assert (Hk : (k ≤ 1)%nat) by (unfold k; lia).
    rewrite IH; rewrite Hstep.
    + fold rest.
      replace (drop k (m_cpuHistory m ++ [s]) ++ rest)%list
        with (drop k (m_cpuHistory m ++ s :: rest)).
      * rewrite drop_drop. f_equal.
        rewrite length_drop, !length_app. cbn [length].
        unfold k in *. lia.
      * rewrite (cons_middle s), app_assoc.
        rewrite (drop_app_le (m_cpuHistory m ++ [s])); [done|].
        rewrite length_app; cbn [length]; lia.
    + rewrite length_drop, length_app. cbn [length]. unfold k. lia.
Qed.

Lemma cpu_samples_length hs : ∀ m, length (cpu_samples hs m) = length hs.
Proof. induction hs as [|h hs IH]; intros m; cbn; [done|by rewrite IH]. Qed.

Lemma construct_history stat : m_cpuHistory (construct stat) = [].
Proof.
  unfold construct.
  by pose proof (SampleCpuUsage_frame stat members_default) as (_ & -> & _).
Qed.

(** C1.  From a freshly constructed monitor, after any sequence of [Update]
    calls the CPU history holds at most [MaxHistory] = 256 samples, and it is
    the sequence of sampled values, oldest first, with all but the last 256
    dropped: once more than 256 updates were made it is exactly the 256 most
    recent samples in chronological order, the evicted ones being the oldest. *)
Theorem cpu_history_bounded_fifo (stat : option ProcStat) (hs : list Host) :
  let m := run hs (construct stat) in
  let samples := cpu_samples hs (construct stat) in
  MaxHistory = 256%nat
  ∧ (length (m_cpuHistory m) ≤ MaxHistory)%nat
  ∧ length (m_cpuHistory m) = Nat.min (length hs) MaxHistory
  ∧ m_cpuHistory m = drop (length hs - MaxHistory) samples
  ∧ samples
    = (take (length hs - MaxHistory) samples ++ m_cpuHistory m)%list.
Proof.
  cbn zeta.
  assert (Hrun : m_cpuHistory (run hs (construct stat))
                 = drop (length hs - MaxHistory)
                     (cpu_samples hs (construct stat))).
  { rewrite run_history by (rewrite construct_history; cbn; lia).
    by rewrite construct_history, app_nil_l, cpu_samples_length. }
  assert (Hlen : length (m_cpuHistory (run hs (construct stat)))
                 = Nat.min (length hs) MaxHistory).
  { rewrite Hrun, length_drop, cpu_samples_length. lia. }
  split_and!; [done|lia|done|done|].
  by rewrite Hrun, take_drop.
Qed.

(** 300 ticks: the 44 oldest samples are gone. *)
Example history_after_300_updates :
  length (m_cpuHistory (run (repeat host_without_ps 300) (construct None)))
  = 256%nat.
Proof. vm_compute. reflexivity. Qed.

(** ** Strings *)

Module StrFacts.
Import Str.

Lemma append_empty_r s : s ++ "" = s.
Proof. induction s as [|c s IH]; cbn; [done|by rewrite IH]. Qed.

Lemma append_assoc s1 s2 s3 : (s1 ++ s2) ++ s3 = s1 ++ (s2 ++ s3).
Proof. induction s1 as [|c s1 IH]; cbn; [done|by rewrite IH]. Qed.

Lemma append_eq_empty s1 s2 : s1 ++ s2 = "" → s1 = "" ∧ s2 = "".
Proof. by destruct s1. Qed.

Lemma map_append f s1 s2 : map f (s1 ++ s2) = map f s1 ++ map f s2.
Proof. induction s1 as [|c s1 IH]; cbn; [done|by rewrite IH]. Qed.

Lemma forallb_append p s1 s2 :
  forallb p (s1 ++ s2) = forallb p s1 && forallb p s2.
Proof.
  induction s1 as [|c s1 IH]; cbn; [done|].
  by rewrite IH, andb_assoc.
Qed.

Lemma starts_with_iff p s :
  starts_with p s = true ↔ ∃ post, s = p ++ post.
Proof.
  revert s. induction p as [|a p IH]; intros s; cbn.
  - split; [by exists s|done].
  - destruct s as [|b s].
    + split; [done|]. by intros [post ?].
    + rewrite andb_true_iff, IH. split.
      * intros [Hab [post ->]]. apply Ascii.eqb_eq in Hab as ->.
        by exists post.
      * intros [post [= -> ->]]. split; [apply Ascii.eqb_refl|by exists post].
Qed.

(** [find] answers whether the needle occurs. *)
Lemma find_iff hay needle : find hay needle ≠ None ↔ Substring needle hay.
Proof.
  unfold Substring. induction hay as [|c hay IH]; cbn [find].
  - destruct (starts_with needle "") eqn:Hsw.
    + apply starts_with_iff in Hsw as [post Hpost].
      split; [|done]. intros _. exists "", post. done.
    + split; [done|]. intros (pre & post & Heq). symmetry in Heq.
      apply append_eq_empty in Heq as [-> Heq].
      apply append_eq_empty in Heq as [-> _]. done.
  - destruct (starts_with needle (String c hay)) eqn:Hsw.
    + apply starts_with_iff in Hsw as [post Hpost].
      split; [|done]. intros _. by exists "", post.
    + split.
      * intros Hfind.
        destruct (find hay needle) eqn:Hf; [|done].
        destruct IH as [IH _].
        destruct IH as (pre & post & ->); [done|].
        by exists (String c pre), post.
      * intros (pre & post & Heq). destruct pre as [|c' pre].
        -- cbn in Heq. assert (starts_with needle (String c hay) = true)
             as Hyes by (apply starts_with_iff; by exists post).
           congruence.
        -- injection Heq as -> ->.
           destruct IH as [_ IH].
           destruct (find (pre ++ needle ++ post) needle) eqn:Hf; [done|].
           exfalso. apply IH; [|done]. by exists pre, post.
Qed.

Lemma forallb_substring p needle hay :
  Substring needle hay → forallb p hay = true → forallb p needle = true.
Proof.
  intros (pre & post & ->).
  rewrite !forallb_append, !andb_true_iff. tauto.
Qed.

(** The characters [std::to_string(int)] can produce. *)
Definition pid_char (c : ascii) : bool :=
  is_digit c || Ascii.eqb c "-"%char.

Lemma string_of_uint_digits d :
  forallb pid_char (NilEmpty.string_of_uint d) = true.
Proof. induction d; cbn; [done|by rewrite IHd..]. Qed.

Lemma to_string_chars z : forallb pid_char (to_string z) = true.
Proof.
  unfold to_string. destruct (Z.to_int z) as [d|d]; cbn.
  - apply string_of_uint_digits.
  - apply string_of_uint_digits.
Qed.

Lemma tolower_pid_char c : pid_char (tolower c) = true → tolower c = c.
Proof.
  destruct c as [[] [] [] [] [] [] [] []]; vm_compute; congruence.
Qed.

Lemma pid_char_tolower c : pid_char c = true → tolower c = c.
Proof.
  destruct c as [[] [] [] [] [] [] [] []]; vm_compute; congruence.
Qed.

Lemma toLower_of_pid_chars s :
  forallb pid_char (map tolower s) = true → map tolower s = s.
Proof.
  induction s as [|c s IH]; cbn; [done|].
  rewrite andb_true_iff. intros [Hc Hs].
  by rewrite (tolower_pid_char c Hc), IH.
Qed.

Lemma pid_chars_toLower s :
  forallb pid_char s = true → map tolower s = s.
Proof.
  induction s as [|c s IH]; cbn; [done|].
  rewrite andb_true_iff. intros [Hc Hs].
  by rewrite (pid_char_tolower c Hc), IH.
Qed.

(** Lower-casing the filter changes nothing for the match against a
    decimal number. *)
Lemma substring_to_string_toLower flt z :
  Substring (map tolower flt) (to_string z) ↔ Substring flt (to_string z).
Proof.
  split; intros Hsub.
  - rewrite <- (toLower_of_pid_chars flt); [done|].
    eapply forallb_substring; [done|apply to_string_chars].
  - rewrite pid_chars_toLower; [done|].
    eapply forallb_substring; [done|apply to_string_chars].
Qed.

End StrFacts.

(** ** Filtering the process cache *)

(** [std::tolower] against the alphabet: it maps the capital of a pair to
    its small letter and leaves every other character alone. *)
Lemma case_pair_tolower capital small :
  case_pair capital small →
  Str.tolower capital = small ∧ Str.tolower small = small
  ∧ capital = ascii_of_N (N_of_ascii small - 32).
Proof.
  unfold case_pair, capital_letters, small_letters. intros (i & Hc & Hs).
  do 26 (destruct i as [|i];
         [cbn in Hc, Hs; injection Hc as <-; injection Hs as <-;
          by vm_compute|]).
  by cbn in Hc.
Qed.

Ltac alphabet_place n :=
  first [ exists n; split; reflexivity
        | lazymatch n with
          | 26%nat => fail
          | _ => alphabet_place (S n)
          end ].

Lemma tolower_alphabet c :
  Str.tolower c = c ∨ case_pair c (Str.tolower c).
Proof.
  destruct c as [[] [] [] [] [] [] [] []];
    first [ left; reflexivity | right; alphabet_place 0%nat ].
Qed.

Lemma same_letter_tolower a b :
  same_letter a b ↔ Str.tolower a = Str.tolower b.
Proof.
  split.
  - intros [->|[Hab|Hba]]; [done|..].
    + apply case_pair_tolower in Hab as (Ha & Hb & _). congruence.
    + apply case_pair_tolower in Hba as (Hb & Ha & _). congruence.
  - intros Heq.
    destruct (tolower_alphabet a) as [Ha|Ha],
             (tolower_alphabet b) as [Hb|Hb].
    + left. congruence.
    + right. right. rewrite <- Heq, Ha in Hb. done.
    + right. left. rewrite Heq, Hb in Ha. done.
    + left. apply case_pair_tolower in Ha as (_ & _ & ->).
      apply case_pair_tolower in Hb as (_ & _ & ->). by rewrite Heq.
Qed.

Ltac same_letters :=
  repeat first
    [ apply same_empty
    | apply same_cons;
      [ first [ left; reflexivity
              | right; left; alphabet_place 0%nat
              | right; right; alphabet_place 0%nat ] | ] ].

Lemma same_ignoring_case_toLower a b :
  same_ignoring_case a b ↔ toLower a = toLower b.
Proof.
  unfold toLower. split.
  - induction 1 as [|x y s t Hxy%same_letter_tolower _ IH]; cbn; [done|].
    by rewrite Hxy, IH.
  - revert b. induction a as [|x a IH]; intros [|y b]; cbn; try done.
    + constructor.
    + intros [= Hxy Hab].
      constructor; [by apply same_letter_tolower|by apply IH].
Qed.

Lemma map_eq_append f s : ∀ a b,
  Str.map f s = a ++ b →
  ∃ s1 s2, s = s1 ++ s2 ∧ Str.map f s1 = a ∧ Str.map f s2 = b.
Proof.
  induction s as [|c s IH]; intros a b Heq.
  - symmetry in Heq. apply StrFacts.append_eq_empty in Heq as [-> ->].
    by exists "", "".
  - destruct a as [|x a].
    + exists "", (String c s). by cbn in *.
    + cbn in Heq. injection Heq as Hx Heq.
      destruct (IH a b Heq) as (s1 & s2 & -> & <- & <-).
      exists (String c s1), s2. cbn. by rewrite Hx.
Qed.

(** Containing the filter when case is ignored is containing the
    lower-cased filter in the lower-cased name. *)
Lemma name_contains_toLower flt p :
  name_contains_ignoring_case flt p
  ↔ Str.Substring (toLower flt) (toLower (name p)).
Proof.
  unfold name_contains_ignoring_case, Str.Substring, toLower. split.
  - intros (pre & mid & post & -> & Hsame).
    apply same_ignoring_case_toLower in Hsame. unfold toLower in Hsame.
    exists (Str.map Str.tolower pre), (Str.map Str.tolower post).
    by rewrite !StrFacts.map_append, Hsame.
  - intros (pre' & post' & Heq).
    apply map_eq_append in Heq as (pre & rest & -> & <- & Hrest).
    apply map_eq_append in Hrest as (mid & post & -> & Hmid & <-).
    exists pre, mid, post. split; [done|].
    by apply same_ignoring_case_toLower.
Qed.

#[local] Instance Substring_dec needle hay :
  Decision (Str.Substring needle hay).
Proof.
  refine (cast_if (decide (Str.find hay needle ≠ None)));
    by rewrite <- StrFacts.find_iff.
Defined.

#[local] Instance selected_dec flt p : Decision (selected flt p).
Proof.
  refine (cast_if (decide (Str.Substring (toLower flt) (toLower (name p))
                           ∨ pid_contains flt p)));
    unfold selected; by rewrite name_contains_toLower.
Defined.

Lemma matches_selected flt p : matches (toLower flt) p = true ↔ selected flt p.
Proof.
  unfold matches, selected, pid_contains.
  rewrite name_contains_toLower.
  rewrite !orb_true_iff, !bool_decide_eq_true, !StrFacts.find_iff.
  unfold toLower at 3. rewrite StrFacts.substring_to_string_toLower.
  split; [|tauto]. intros [[Hempty|Hname]|Hpid]; [|tauto..].
  left. destruct (toLower flt); [|done]. by exists "", (toLower (name p)).
Qed.

Lemma push_back_loop {A} (keep : A → bool) (l : list A) : ∀ acc,
  fold_left (λ result p, if keep p then result ++ [p] else result)%list l acc
  = (acc ++ List.filter keep l)%list.
Proof.
  induction l as [|x l IH]; intros acc; cbn.
  - by rewrite app_nil_r.
  - rewrite IH. destruct (keep x); [|done].
    by rewrite <- app_assoc.
Qed.

Lemma filter_bool_prop {A} (keep : A → bool) (P : A → Prop)
    `{∀ x, Decision (P x)} (l : list A) :
  (∀ x, keep x = true ↔ P x) → List.filter keep l = filter P l.
Proof.
  intros Hkeep. induction l as [|x l IH]; [done|].
  rewrite filter_cons. cbn [List.filter]. rewrite IH.
  destruct (keep x) eqn:Hx.
  - rewrite decide_True; [done|by apply Hkeep].
  - rewrite decide_False; [done|]. rewrite <- Hkeep. congruence.
Qed.

Lemma GetProcesses_eval flt m :
  eval (GetProcesses flt) m = filter (selected flt) (m_processesCache m).
Proof.
  unfold GetProcesses, eval, bind, read, ret. cbn.
  rewrite push_back_loop, app_nil_l.
  apply filter_bool_prop, matches_selected.
Qed.

Lemma GetProcesses_empty_filter m :
  eval (GetProcesses "") m = m_processesCache m.
Proof.
  rewrite GetProcesses_eval.
  induction (m_processesCache m) as [|p l IH]; [done|].
  rewrite filter_cons_True; [by rewrite IH|].
  left. exists "", "", (name p). split; [done|constructor].
Qed.

(** C2.  [GetProcesses(filter)] returns, in cache order, exactly the cached
    records whose name contains the filter when case is ignored or whose
    decimal pid contains the filter; with the empty filter it returns every
    cached record; and it leaves the monitor, the cache included, as it
    was. *)
Theorem GetProcesses_selects (flt : string) (m : SystemMonitor) :
  exec (GetProcesses flt) m = m
  ∧ eval (GetProcesses flt) m = filter (selected flt) (m_processesCache m)
  ∧ (∀ p, p ∈ eval (GetProcesses flt) m
          ↔ p ∈ m_processesCache m ∧ selected flt p)
  ∧ eval (GetProcesses "") m = m_processesCache m.
Proof.
  split; [done|]. split; [apply GetProcesses_eval|]. split.
  - intros p. rewrite GetProcesses_eval, list_elem_of_filter. tauto.
  - apply GetProcesses_empty_filter.
Qed.

(** Capitals in the filter find small letters in the name and the other way
    round; a digit is no letter and matches only itself, and so does a byte
    above 127 (201 and 233 are a capital and a small E with an accent in
    Latin-1). *)
Example selected_any_case :
  selected "cHrO" {| pid := 123; name := "Google Chrome 7" |}
  ∧ ¬ same_ignoring_case "7" "W"
  ∧ ¬ same_ignoring_case (String (ascii_of_N 201) "")
        (String (ascii_of_N 233) "").
Proof.
  split_and!.
  - left. exists "Google ", "Chro", "me 7". split; [reflexivity|same_letters].
  - intros Hsame%same_ignoring_case_toLower. discriminate Hsame.
  - intros Hsame%same_ignoring_case_toLower. discriminate Hsame.
Qed.

(** The two filters of the specification's example. *)
Example GetProcesses_ch :
  eval (GetProcesses "ch")
    (set_processesCache
       [ {| pid := 123; name := "Chrome" |}; {| pid := 456; name := "bash" |} ]
       members_default)
  = [ {| pid := 123; name := "Chrome" |} ].
Proof. reflexivity. Qed.

Example GetProcesses_456 :
  eval (GetProcesses "456")
    (set_processesCache
       [ {| pid := 123; name := "Chrome" |}; {| pid := 456; name := "bash" |} ]
       members_default)
  = [ {| pid := 456; name := "bash" |} ].
Proof. reflexivity. Qed.

(** ** Weather: what a fetch leaves behind *)

Lemma FetchWeatherBlocking_weather t m :
  m_weather (exec (FetchWeatherBlocking t) m)
  = if curl_handle t && (curl_code t =? CURLE_OK)%Z
    then match try_block t with
         | Some leave => m_weather (exec leave m)
         | None => None
         end
    else None.
Proof.
  unfold FetchWeatherBlocking.
  destruct (curl_handle t); [|done].
  destruct (curl_code t =? CURLE_OK)%Z; [|done].
  by destruct (try_block t).
Qed.

Lemma FetchWeatherBlocking_frame t m :
  let m' := exec (FetchWeatherBlocking t) m in
  m_weatherLoading m' = m_weatherLoading m
  ∧ m_weatherThreadStop m' = m_weatherThreadStop m
  ∧ m_cpuHistory m' = m_cpuHistory m
  ∧ m_processesCache m' = m_processesCache m.
Proof.
  unfold FetchWeatherBlocking, try_block.
  destruct (curl_handle t); [|done].
  destruct (curl_code t =? CURLE_OK)%Z; [|done].
  destruct (response_json t) as [j|]; [|done]. cbn.
  destruct (negb _); [done|].
  destruct (Json.value_or Json.get_double _ "temperature" _); [|done]. cbn.
  destruct (Json.value_or Json.get_double _ "windspeed" _); [|done]. cbn.
  by destruct (Json.value_or Json.get_int _ "weathercode" _).
Qed.

(** C3.  After a fetch attempt that fails (no handle, transfer error such as
    a network error or a timeout, malformed JSON, the required member
    [current_weather] missing, or a member that does not convert),
    [GetWeather()] returns nothing, whatever reading the monitor held before
    the attempt. *)
Theorem failed_fetch_clears_weather (t : Transfer) (m : SystemMonitor) :
  FetchFails t →
  eval GetWeather (exec (FetchWeatherBlocking t) m) = None.
Proof.
  intros Hfail. change (m_weather (exec (FetchWeatherBlocking t) m) = None).
  rewrite FetchWeatherBlocking_weather.
  destruct (curl_handle t) eqn:Hh; [|done].
  destruct (curl_code t =? CURLE_OK)%Z eqn:Hc; [|done]. cbn.
  destruct Hfail as [Hno|Hcode|Hbody|j Hbody Hmiss|Hthrow].
  - congruence.
  - by apply Z.eqb_eq in Hc.
  - unfold try_block. by rewrite Hbody.
  - unfold try_block. rewrite Hbody. cbn. by rewrite Hmiss.
  - by rewrite Hthrow.
Qed.

Lemma failed_fetch_clears_weather_witness :
  m_weather (set_weather (Some reading_20C) members_default) = Some reading_20C
  ∧ eval GetWeather
      (exec (FetchWeatherBlocking timed_out)
         (set_weather (Some reading_20C) members_default)) = None.
Proof.
  split; [reflexivity|].
  apply (failed_fetch_clears_weather timed_out).
  apply fails_transfer. vm_compute. discriminate.
Defined.

Example bare_current_weather_stored :
  m_weather (exec (FetchWeatherBlocking bare_current_weather) members_default)
  = Some {| summary := "Code 0"; temperatureC := F64.zero;
            windKph := F64.zero; lastUpdated := 5 |}.
Proof. reflexivity. Qed.

(** C6 as stated fails: a reading is stored from a body that has none of
    the three fields. *)
Lemma incomplete_fields_stored :
  ¬ (∀ t m, m_weather (exec (FetchWeatherBlocking t) m) ≠ None →
            complete_body t).
Proof.
  intros Hclaim.
  destruct (Hclaim bare_current_weather members_default)
    as (members & cw & Hbody & Hcw & Htemp & _).
  - rewrite bare_current_weather_stored. done.
  - cbn in Hbody. injection Hbody as <-.
    cbn in Hcw. injection Hcw as <-.
    by apply Htemp.
Qed.

Lemma value_or_converts {A} (get : Json.value → option A) cw key d :
  Json.value_or get (Json.Object cw) key d ≠ None
  ↔ absent_or_converts get key cw.
Proof.
  unfold absent_or_converts. cbn.
  by destruct (Json.find key cw).
Qed.

Lemma value_or_absent {A} (get : Json.value → option A) cw key d :
  Json.find key cw = None → Json.value_or get (Json.Object cw) key d = Some d.
Proof. intros Hnone. cbn. by rewrite Hnone. Qed.

Lemma contains_find j key :
  Json.contains j key = true
  ↔ ∃ members v, j = Json.Object members ∧ Json.find key members = Some v.
Proof.
  split.
  - destruct j as [| | | | | | |members]; cbn; try done.
    rewrite bool_decide_eq_true.
    destruct (Json.find key members) as [v|] eqn:Hf; [|done].
    intros _. by exists members, v.
  - intros (members & v & -> & Hf). cbn. by rewrite Hf.
Qed.

(** What the [try] block leaves when it stores. *)
Lemma try_block_stores t m w :
  m_weather (exec (FetchWeatherBlocking t) m) = Some w →
  curl_handle t = true ∧ curl_code t = CURLE_OK
  ∧ ∃ members cw temperature windspeed code,
      response_json t = Some (Json.Object members)
      ∧ Json.find "current_weather" members = Some cw
      ∧ Json.value_or Json.get_double cw "temperature" F64.zero
        = Some temperature
      ∧ Json.value_or Json.get_double cw "windspeed" F64.zero = Some windspeed
      ∧ Json.value_or Json.get_int cw "weathercode" 0 = Some code
      ∧ w = {| summary := "Code " ++ Str.to_string code;
               temperatureC := temperature; windKph := windspeed;
               lastUpdated := clock_now t |}.
Proof.
  rewrite FetchWeatherBlocking_weather.
  destruct (curl_handle t); [|done].
  destruct (curl_code t =? CURLE_OK)%Z eqn:Hc; [|done].
  apply Z.eqb_eq in Hc. cbn [andb].
  unfold try_block.
  destruct (response_json t) as [j|]; [|done]. cbn [mbind option_bind].
  destruct (Json.contains j "current_weather") eqn:Hcont; [|done].
  apply contains_find in Hcont as (members & cw & -> & Hcw).
  cbn [negb Json.at_key]. rewrite Hcw. cbn [default from_option id].
  destruct (Json.value_or Json.get_double cw "temperature" F64.zero)
    as [temperature|] eqn:Ht; [|done]. cbn [mbind option_bind].
  destruct (Json.value_or Json.get_double cw "windspeed" F64.zero)
    as [windspeed|] eqn:Hwd; [|done]. cbn [mbind option_bind].
  destruct (Json.value_or Json.get_int cw "weathercode" 0)
    as [code|] eqn:Hcode; [|done]. cbn [mbind option_bind].
  intros [= <-]. split; [done|]. split; [done|].
  by exists members, cw, temperature, windspeed, code.
Qed.

(** C6, amended.  A fetch stores a reading exactly when the transfer
    succeeds, the body parses to an object with a [current_weather] member
    that is an object, and each of [temperature], [windspeed], [weathercode]
    is absent from it or converts to a number.  A field that is absent is
    replaced by 0 (summary "Code 0"); in every other case no reading is
    stored. *)
Theorem weather_stored_iff_storable (t : Transfer) (m : SystemMonitor) :
  let stored := m_weather (exec (FetchWeatherBlocking t) m) in
  (stored ≠ None ↔ storable t)
  ∧ (∀ w members cw,
       stored = Some w →
       response_json t = Some (Json.Object members) →
       Json.find "current_weather" members = Some (Json.Object cw) →
       (Json.find "temperature" cw = None → temperatureC w = F64.zero)
       ∧ (Json.find "windspeed" cw = None → windKph w = F64.zero)
       ∧ (Json.find "weathercode" cw = None → summary w = "Code 0")
       ∧ lastUpdated w = clock_now t).
Proof.
  cbn zeta. split; [split|].
  - destruct (m_weather (exec (FetchWeatherBlocking t) m)) as [w|] eqn:Hw;
      [|done].
    intros _. apply try_block_stores in Hw
      as (Hh & Hc & members & cw & temperature & windspeed & code
          & Hbody & Hcw & Ht & Hwd & Hcode & ->).
    split; [done|]. split; [done|].
    destruct cw as [| | | | | | |fields]; try done.
    exists members, fields. split; [done|]. split; [done|].
    split_and!;
      [apply (value_or_converts _ _ _ F64.zero)
      |apply (value_or_converts _ _ _ F64.zero)
      |apply (value_or_converts _ _ _ 0)]; congruence.
  - intros (Hh & Hc & members & cw & Hbody & Hcw & Ht & Hwd & Hcode).
    rewrite FetchWeatherBlocking_weather, Hh, Hc. cbn.
    unfold try_block. rewrite Hbody. cbn. rewrite Hcw. cbn.
    apply (value_or_converts _ _ _ F64.zero) in Ht, Hwd.
    apply (value_or_converts _ _ _ 0) in Hcode. cbn in Ht, Hwd, Hcode.
    destruct (match Json.find "temperature" cw with
              | Some v => Json.get_double v | None => Some F64.zero end);
      [|done].
    destruct (match Json.find "windspeed" cw with
              | Some v => Json.get_double v | None => Some F64.zero end);
      [|done].
    destruct (match Json.find "weathercode" cw with
              | Some v => Json.get_int v | None => Some 0 end);
      [|done].
    done.
  - intros w members cw Hw Hbody Hcw.
    apply try_block_stores in Hw
      as (Hh & Hc & members' & cw' & temperature & windspeed & code
          & Hbody' & Hcw' & Ht & Hwd & Hcode & ->).
    rewrite Hbody in Hbody'. injection Hbody' as <-.
    rewrite Hcw in Hcw'. injection Hcw' as <-. cbn.
    split_and!; [| | |done].
    + intros Hnone. rewrite value_or_absent in Ht by done. congruence.
    + intros Hnone. rewrite value_or_absent in Hwd by done. congruence.
    + intros Hnone. rewrite value_or_absent in Hcode by done.
      by injection Hcode as <-.
Qed.

Lemma weather_stored_iff_storable_witness :
  storable bare_current_weather
  ∧ ∀ w, m_weather (exec (FetchWeatherBlocking bare_current_weather)
                      members_default) = Some w →
         temperatureC w = F64.zero ∧ windKph w = F64.zero
         ∧ summary w = "Code 0".
Proof.
  destruct (weather_stored_iff_storable bare_current_weather members_default)
    as [Hiff Hdefaults].
  split.
  - apply Hiff. rewrite bare_current_weather_stored. discriminate.
  - intros w Hw.
    destruct (Hdefaults w [("current_weather", Json.Object [])] [] Hw
                eq_refl eq_refl) as (Ht & Hwd & Hc & _).
    split; [exact (Ht eq_refl)|]. split; [exact (Hwd eq_refl)|exact (Hc eq_refl)].
Defined.

(** ** Refresh requests *)

Lemma RequestWeatherRefresh_exec m :
  exec RequestWeatherRefresh m = set_weatherLoading true m.
Proof.
  unfold RequestWeatherRefresh, exec, bind, read, write, ret. cbn.
  by destruct (m_weatherLoading m).
Qed.

Lemma set_weatherLoading_same m :
  set_weatherLoading (m_weatherLoading m) m = m.
Proof. by destruct m. Qed.

Lemma RequestWeatherRefresh_absorbed m :
  m_weatherLoading m = true → exec RequestWeatherRefresh m = m.
Proof.
  intros Hl. rewrite RequestWeatherRefresh_exec, <- Hl.
  apply set_weatherLoading_same.
Qed.

Lemma RequestWeatherRefresh_twice m :
  exec RequestWeatherRefresh (exec RequestWeatherRefresh m)
  = exec RequestWeatherRefresh m.
Proof.
  apply RequestWeatherRefresh_absorbed.
  by rewrite RequestWeatherRefresh_exec.
Qed.

Module WorkerFacts.
Import Worker.

Lemma with_monitor_id s : with_monitor (λ m, m) s = s.
Proof. by destruct s. Qed.

Lemma request_absorbed s :
  m_weatherLoading (monitor s) = true → step Request s = s.
Proof.
  intros Hl. destruct s as [m w n]. unfold step, with_monitor. cbn in *.
  by rewrite RequestWeatherRefresh_absorbed.
Qed.

Ltac flags :=
  cbn in *;
  repeat (case_match; cbn in *; simplify_eq);
  split; (done || lia || congruence).

Lemma step_invariant e s :
  in_flight_flag s →
  in_flight_flag (step e s)
  ∧ (fetches (step e s) + pending (step e s)
     = fetches s + pending s + accepted [e] s)%nat.
Proof.
  destruct s as [m w n]. unfold in_flight_flag, pending. intros Hinv.
  destruct e as [|h|t|]; cbn [step accepted with_monitor worker monitor fetches].
  - rewrite RequestWeatherRefresh_exec. destruct w; flags.
  - destruct (Update_weather h m) as [_ ->]. destruct w; flags.
  - unfold worker_step. cbn [worker monitor fetches] in *.
    destruct w; try (by flags).
    destruct (FetchWeatherBlocking_frame t m) as (Hl & _).
    cbn in Hl |- *. rewrite Hl. split; [done|lia].
  - destruct w; flags.
Qed.

Lemma run_invariant tr : ∀ s,
  in_flight_flag s →
  in_flight_flag (run tr s)
  ∧ (fetches (run tr s) + pending (run tr s)
     = fetches s + pending s + accepted tr s)%nat.
Proof.
  induction tr as [|e tr IH]; intros s Hinv.
  - cbn. split; [done|lia].
  - destruct (step_invariant e s Hinv) as [Hinv' Hcount].
    destruct (IH (step e s) Hinv') as [Hinv'' Hcount'].
    change (run (e :: tr) s) with (run tr (step e s)).
    split; [done|]. rewrite Hcount', Hcount. cbn [accepted]. lia.
Qed.

Lemma worker_run_cons e tr s : run (e :: tr) s = run tr (step e s).
Proof. reflexivity. Qed.

Lemma worker_run_app tr1 tr2 s : run (tr1 ++ tr2) s = run tr2 (run tr1 s).
Proof. apply fold_left_app. Qed.

Lemma run_requests_absorbed n s :
  m_weatherLoading (monitor s) = true → run (repeat Request n) s = s.
Proof.
  intros Hl. induction n as [|n IH]; [done|].
  cbn [repeat]. change (run (Request :: repeat Request n) s)
    with (run (repeat Request n) (step Request s)).
  by rewrite request_absorbed.
Qed.

Lemma worker_run_nil s : run [] s = s.
Proof. reflexivity. Qed.

Lemma worker_step_AtWhile t m n :
  m_weatherThreadStop m = false →
  worker_step t {| monitor := m; worker := AtWhile; fetches := n |}
  = {| monitor := m; worker := AtIf; fetches := n |}.
Proof. intros Hs. unfold worker_step. cbn. by rewrite Hs. Qed.

Lemma worker_step_AtIf t m n :
  m_weatherLoading m = true →
  worker_step t {| monitor := m; worker := AtIf; fetches := n |}
  = {| monitor := m; worker := Fetching; fetches := S n |}.
Proof. intros Hl. unfold worker_step. cbn. by rewrite Hl. Qed.

Lemma worker_step_Fetching t m n :
  worker_step t {| monitor := m; worker := Fetching; fetches := n |}
  = {| monitor := exec (FetchWeatherBlocking t) m; worker := AtStore;
       fetches := n |}.
Proof. reflexivity. Qed.

Lemma worker_step_AtStore t m n :
  worker_step t {| monitor := m; worker := AtStore; fetches := n |}
  = {| monitor := set_weatherLoading false m; worker := Sleeping;
       fetches := n |}.
Proof. reflexivity. Qed.

(** With the flag clear and the worker outside a fetch, worker steps alone
    never start a fetch and leave the flag clear. *)
Lemma idle_steps more : ∀ s,
  m_weatherLoading (monitor s) = false →
  worker s ≠ Fetching → worker s ≠ AtStore →
  fetches (run (map Step more) s) = fetches s
  ∧ m_weatherLoading (monitor (run (map Step more) s)) = false.
Proof.
  induction more as [|t more IH]; intros s Hl Hf Hs; [done|].
  cbn [map]. rewrite worker_run_cons.
  destruct s as [m w n]. cbn in Hl, Hf, Hs |- *.
  destruct w; try done; unfold worker_step; cbn [worker monitor fetches].
  - destruct (m_weatherThreadStop m); by apply IH.
  - rewrite Hl. by apply IH.
  - by apply IH.
  - by apply IH.
Qed.

Lemma construct_flags stat :
  m_weatherLoading (construct stat) = false
  ∧ m_weatherThreadStop (construct stat) = false.
Proof.
  unfold construct.
  by pose proof (SampleCpuUsage_frame stat members_default)
    as (_ & _ & _ & -> & -> & _).
Qed.

Lemma worker_run_one e s : run [e] s = step e s.
Proof. reflexivity. Qed.

Lemma burst_one_fetch stat n0 n1 n2 n3 t more :
  let s := run (burst n0 n1 n2 n3 t more) (start (construct stat)) in
  fetches s = 1%nat ∧ m_weatherLoading (monitor s) = false.
Proof.
  cbn zeta. unfold burst. destruct (construct_flags stat) as [Hl Hs].
  cbn [repeat]. rewrite <- app_comm_cons, worker_run_cons, !worker_run_app.
  rewrite !worker_run_one. cbn [step].
  (* the first request sets the flag, the others are absorbed *)
  set (m1 := set_weatherLoading true (construct stat)).
  assert (Hs1 : with_monitor (exec RequestWeatherRefresh)
                  (start (construct stat))
                = {| monitor := m1; worker := AtWhile; fetches := 0 |}).
  { unfold with_monitor, start. cbn.
    by rewrite RequestWeatherRefresh_exec. }
  rewrite Hs1, (run_requests_absorbed n0) by done.
  (* the worker tests the stop flag, then the loading flag *)
  rewrite worker_step_AtWhile by done.
  rewrite (run_requests_absorbed n1) by done.
  rewrite worker_step_AtIf by done.
  (* requests while the transfer runs *)
  rewrite (run_requests_absorbed n2) by done.
  rewrite worker_step_Fetching.
  set (m2 := exec (FetchWeatherBlocking t) m1).
  assert (Hl2 : m_weatherLoading m2 = true).
  { destruct (FetchWeatherBlocking_frame t m1) as (Hframe & _).
    unfold m2. by rewrite Hframe. }
  (* requests between the end of the transfer and the store *)
  rewrite (run_requests_absorbed n3) by done.
  rewrite worker_step_AtStore.
  (* nobody asks any more *)
  by apply idle_steps.
Qed.

End WorkerFacts.

(** C4.  [RequestWeatherRefresh()] is idempotent, and a call made while the
    flag is set (a refresh pending or in flight) changes nothing at all.  In
    every interleaving of requests, ticks, worker steps and the stop request
    from a fresh monitor, the fetches begun plus the one still pending equal
    the number of requests that found the flag clear; and any burst of
    requests made before the refresh they asked for has completed starts
    exactly one fetch. *)
Theorem refresh_requests_coalesce (stat : option ProcStat)
    (tr : list Worker.event) :
  let s0 := Worker.start (construct stat) in
  let s := Worker.run tr s0 in
  (∀ m, exec RequestWeatherRefresh (exec RequestWeatherRefresh m)
        = exec RequestWeatherRefresh m)
  ∧ (∀ m, m_weatherLoading m = true → exec RequestWeatherRefresh m = m)
  ∧ (m_weatherLoading (Worker.monitor s) = true
     → Worker.step Worker.Request s = s)
  ∧ (Worker.fetches s + Worker.pending s = Worker.accepted tr s0)%nat
  ∧ (∀ n0 n1 n2 n3 t more,
       Worker.fetches (Worker.run (burst n0 n1 n2 n3 t more) s0) = 1%nat).
Proof.
  cbn zeta. split_and!.
  - apply RequestWeatherRefresh_twice.
  - apply RequestWeatherRefresh_absorbed.
  - apply WorkerFacts.request_absorbed.
  - destruct (WorkerFacts.run_invariant tr (Worker.start (construct stat)))
      as [_ Hcount]; [done|].
    rewrite Hcount. unfold Worker.pending. cbn.
    destruct (WorkerFacts.construct_flags stat) as [-> _]. lia.
  - intros n0 n1 n2 n3 t more.
    apply (WorkerFacts.burst_one_fetch stat n0 n1 n2 n3 t more).
Qed.

(** Two requests in quick succession while a fetch is in flight. *)
Example two_requests_in_flight :
  Worker.fetches
    (Worker.run
       [Worker.Request; Worker.Step timed_out; Worker.Step timed_out;
        Worker.Request; Worker.Request; Worker.Step timed_out;
        Worker.Step timed_out; Worker.Step timed_out; Worker.Step timed_out;
        Worker.Step timed_out; Worker.Step timed_out]
       (Worker.start (construct None)))
  = 1%nat.
Proof. reflexivity. Qed.

Lemma refresh_requests_coalesce_witness :
  Worker.fetches
    (Worker.run (burst 1 0 2 0 timed_out [timed_out; timed_out])
       (Worker.start (construct None))) = 1%nat
  ∧ Worker.accepted (burst 1 0 2 0 timed_out [timed_out; timed_out])
      (Worker.start (construct None)) = 1%nat.
Proof.
  destruct (refresh_requests_coalesce None
              (burst 1 0 2 0 timed_out [timed_out; timed_out]))
    as (_ & _ & _ & Hcount & Hburst).
  split.
  - exact (Hburst 1%nat 0%nat 2%nat 0%nat timed_out [timed_out; timed_out]).
  - rewrite <- Hcount. reflexivity.
Defined.

(** ** Terminating a process *)

(** C5.  When [kill] fails, [TerminateProcess] returns [false] together
    with a non-empty message, it returns normally, and it leaves the whole
    monitor, the process cache included, as it was; the cache is replaced
    only by the next [Update()]. *)
Theorem TerminateProcess_failure (os : KillResult) (pid : Z)
    (errorMessage : string) (m : SystemMonitor) :
  kill_ret os ≠ 0 →
  let r := TerminateProcess os pid errorMessage m in
  fst (fst r) = false
  ∧ snd (fst r) ≠ ""
  ∧ snd (fst r) = "kill(SIGTERM) failed: " ++ strerror_errno os
  ∧ snd r = m
  ∧ m_processesCache (snd r) = m_processesCache m
  ∧ ∀ h, m_processesCache (exec (Update h) (snd r))
         = QueryProcesses (ps_buffers h).
Proof.
  intros Hfail. unfold TerminateProcess.
  apply Z.eqb_neq in Hfail. rewrite Hfail. cbn.
  split_and!; try done. intros h. apply Update_cache.
Qed.

Lemma TerminateProcess_failure_witness :
  let m := set_processesCache [ {| pid := 1; name := "init" |} ]
             members_default in
  let r := TerminateProcess no_such_process 999999 "" m in
  kill_ret no_such_process ≠ 0
  ∧ fst (fst r) = false
  ∧ snd (fst r) = "kill(SIGTERM) failed: No such process"
  ∧ m_processesCache (snd r) = [ {| pid := 1; name := "init" |} ].
Proof.
  cbn zeta.
  assert (Hfail : kill_ret no_such_process ≠ 0) by (vm_compute; discriminate).
  pose proof (TerminateProcess_failure no_such_process 999999 ""
                (set_processesCache [ {| pid := 1; name := "init" |} ]
                   members_default) Hfail) as (Hok & _ & Hmsg & _ & Hcache & _).
  split; [exact Hfail|]. split; [exact Hok|]. split; [exact Hmsg|exact Hcache].
Defined.

(** X24.  The same under [_WIN32]: both failures give a fixed non-empty
    message and leave the monitor alone. *)
Lemma Win32_TerminateProcess_failure (os : Win32.TerminateResult) (pid : Z)
    (errorMessage : string) (m : SystemMonitor) :
  Win32.hProc os && Win32.ok os = false →
  let r := Win32.TerminateProcess os pid errorMessage m in
  fst (fst r) = false ∧ snd (fst r) ≠ "" ∧ snd r = m.
Proof.
  unfold Win32.TerminateProcess.
  by destruct (Win32.hProc os), (Win32.ok os).
Qed.

(** ** Process enumeration *)

(** C10.  When the enumeration source cannot be opened ([popen] returns
    null), [Update()] still assigns the result of [QueryProcesses], the empty
    list, to the cache: the records cached before are gone. *)
Theorem Update_failed_enumeration_empties_cache (h : Host)
    (m : SystemMonitor) :
  ps_buffers h = None →
  m_processesCache (exec (Update h) m) = []
  ∧ eval (GetProcesses "") (exec (Update h) m) = [].
Proof.
  intros Hps.
  assert (Hcache : m_processesCache (exec (Update h) m) = []).
  { rewrite Update_cache, Hps. done. }
  split; [done|].
  by rewrite GetProcesses_empty_filter.
Qed.

Lemma Update_failed_enumeration_empties_cache_witness :
  let m := set_processesCache [ {| pid := 1; name := "init" |} ]
             members_default in
  m_processesCache m ≠ []
  ∧ m_processesCache (exec (Update host_without_ps) m) = [].
Proof.
  cbn zeta. split; [discriminate|].
  apply (Update_failed_enumeration_empties_cache host_without_ps).
  reflexivity.
Defined.

Lemma parse_ps_buffer_name buffer p :
  parse_ps_buffer buffer = Some p → has_name p.
Proof.
  unfold parse_ps_buffer, has_name.
  destruct (extract_int buffer) as [[n rest]|]; [|done]. cbn.
  destruct (Str.drop_while Str.isspace (getline rest)) eqn:Hname;
    cbn; by intros [= <-].
Qed.

Lemma parse_ps_buffer_unknown buffer n rest :
  extract_int buffer = Some (n, rest) →
  Str.drop_while Str.isspace (getline rest) = "" →
  parse_ps_buffer buffer = Some {| pid := n; name := "unknown" |}.
Proof.
  intros Hpid Hblank. unfold parse_ps_buffer. rewrite Hpid. cbn.
  by rewrite Hblank.
Qed.

Lemma QueryProcesses_names ps : Forall has_name (QueryProcesses ps).
Proof.
  destruct ps as [buffers|]; cbn; [|constructor].
  assert (Hloop : ∀ procs, Forall has_name procs →
    Forall has_name
      (fold_left (λ procs buffer,
                    match parse_ps_buffer buffer with
                    | Some p => procs ++ [p]
                    | None => procs
                    end)%list buffers procs)).
  { induction buffers as [|buffer buffers IH]; intros procs Hprocs; [done|].
    cbn. apply IH.
    destruct (parse_ps_buffer buffer) as [p|] eqn:Hp; [|done].
    apply Forall_app. split; [done|].
    constructor; [|constructor]. by eapply parse_ps_buffer_name. }
  apply Hloop. constructor.
Qed.

Lemma run_cache_names hs : ∀ m,
  Forall has_name (m_processesCache m) →
  Forall has_name (m_processesCache (run hs m)).
Proof.
  induction hs as [|h hs IH]; intros m Hm; [done|].
  rewrite run_cons. apply IH. rewrite Update_cache.
  apply QueryProcesses_names.
Qed.

(** The loop of [QueryProcesses] as a map over the buffers. *)
Lemma QueryProcesses_omap buffers :
  QueryProcesses (Some buffers) = omap parse_ps_buffer buffers.
Proof.
  unfold QueryProcesses.
  assert (Hloop : ∀ procs,
    fold_left (λ procs buffer,
                 match parse_ps_buffer buffer with
                 | Some p => procs ++ [p]
                 | None => procs
                 end)%list buffers procs
    = (procs ++ omap parse_ps_buffer buffers)%list).
  { induction buffers as [|b buffers IH]; intros procs; cbn.
    - by rewrite app_nil_r.
    - rewrite IH. destruct (parse_ps_buffer b); [|done].
      by rewrite <- app_assoc. }
  by rewrite Hloop.
Qed.

(** C9.  Every record that process enumeration produces has a non-empty
    name, and so has every record in the cache of a monitor driven by
    [Update()] and every record [GetProcesses] returns, for any filter.  The
    records enumeration returns are exactly those the loop body makes of the
    buffers; a line of [ps] with nothing but white space after the pid is
    in the result, in the cache after [Update()] and in what [GetProcesses]
    returns, under the name "unknown". *)
Theorem process_names_nonempty (stat : option ProcStat) (hs : list Host)
    (flt : string) (ps : option (list string)) :
  let m := run hs (construct stat) in
  Forall has_name (QueryProcesses ps)
  ∧ Forall has_name (m_processesCache m)
  ∧ Forall has_name (eval (GetProcesses flt) m)
  ∧ (∀ buffer n rest,
       extract_int buffer = Some (n, rest) →
       Str.drop_while Str.isspace (getline rest) = "" →
       parse_ps_buffer buffer = Some {| pid := n; name := "unknown" |})
  ∧ (∀ buffers p,
       p ∈ QueryProcesses (Some buffers)
       ↔ ∃ buffer, buffer ∈ buffers ∧ parse_ps_buffer buffer = Some p)
  ∧ (∀ buffers buffer n rest h m0,
       ps_buffers h = Some buffers →
       buffer ∈ buffers →
       extract_int buffer = Some (n, rest) →
       Str.drop_while Str.isspace (getline rest) = "" →
       {| pid := n; name := "unknown" |} ∈ QueryProcesses (ps_buffers h)
       ∧ {| pid := n; name := "unknown" |}
           ∈ m_processesCache (exec (Update h) m0)
       ∧ {| pid := n; name := "unknown" |}
           ∈ eval (GetProcesses "") (exec (Update h) m0)).
Proof.
  cbn zeta.
  assert (Hcache : Forall has_name (m_processesCache (run hs (construct stat)))).
  { apply run_cache_names. unfold construct.
    pose proof (SampleCpuUsage_frame stat members_default)
      as (_ & _ & _ & _ & _ & ->). constructor. }
  assert (Hmem : ∀ buffers p,
             p ∈ QueryProcesses (Some buffers)
             ↔ ∃ buffer, buffer ∈ buffers ∧ parse_ps_buffer buffer = Some p).
  { intros buffers p. rewrite QueryProcesses_omap. apply list_elem_of_omap. }
  split_and!.
  - apply QueryProcesses_names.
  - done.
  - rewrite GetProcesses_eval.
    rewrite List.Forall_forall in Hcache |- *.
    intros p Hin%list_elem_of_In.
    apply list_elem_of_filter in Hin as [_ Hp].
    by apply Hcache, list_elem_of_In.
  - apply parse_ps_buffer_unknown.
  - apply Hmem.
  - intros buffers buffer n rest h m0 Hps Hin Hpid Hblank.
    assert (Hq : {| pid := n; name := "unknown" |}
                 ∈ QueryProcesses (ps_buffers h)).
    { rewrite Hps. apply Hmem. exists buffer. split; [done|].
      by apply parse_ps_buffer_unknown with rest. }
    split; [done|].
    by rewrite GetProcesses_empty_filter, Update_cache.
Qed.

(** A [ps] line that carries a pid and no name. *)
Example ps_line_without_name :
  QueryProcesses (Some [ "  42" ++ String newline ""; " 7 sh" ++ String newline "" ])
  = [ {| pid := 42; name := "unknown" |}; {| pid := 7; name := "sh" |} ].
Proof. reflexivity. Qed.

Lemma process_names_nonempty_witness :
  let h := {| proc_stat := None; sys_info := None;
              ps_buffers := Some [ " 7 sh" ++ String newline "";
                                   "  42" ++ String newline "" ] |} in
  {| pid := 42; name := "unknown" |}
    ∈ m_processesCache (exec (Update h) members_default)
  ∧ Forall has_name (QueryProcesses (ps_buffers h)).
Proof.
  cbn zeta.
  destruct (process_names_nonempty None [] ""
              (Some [ " 7 sh" ++ String newline "";
                      "  42" ++ String newline "" ]))
    as (Hquery & _ & _ & _ & _ & Hunknown).
  split; [|exact Hquery].
  destruct (Hunknown
              [ " 7 sh" ++ String newline ""; "  42" ++ String newline "" ]
              ("  42" ++ String newline "") 42 (String newline "")
              {| proc_stat := None; sys_info := None;
                 ps_buffers := Some [ " 7 sh" ++ String newline "";
                                      "  42" ++ String newline "" ] |}
              members_default) as (_ & Hin & _).
  - reflexivity.
  - apply list_elem_of_In. right. left. reflexivity.
  - reflexivity.
  - reflexivity.
  - exact Hin.
Defined.

(** ** CPU sampling *)

Lemma SampleCpuUsage_readable st m :
  readable st →
  SampleCpuUsage (Some st) m
  = (load_of (U64.sub (total_jiffies st) (m_lastTotalJiffies m))
             (U64.sub (idle_jiffies st) (m_lastIdleJiffies m)),
     set_jiffies (total_jiffies st) (idle_jiffies st) m).
Proof.
  unfold readable. intros Hlabel.
  unfold SampleCpuUsage, load_of, bind, read, write, ret.
  rewrite Hlabel. cbn [String.eqb Ascii.eqb Bool.eqb negb].
  fold (idle_jiffies st). fold (total_jiffies st).
  by destruct (_ =? 0)%Z.
Qed.

Lemma U64_sub_0 a b : U64.sub (U64.add a b) 0 = U64.add a b.
Proof.
  unfold U64.sub, U64.add, U64.wrap. rewrite Z.sub_0_r.
  apply Z.mod_mod. unfold U64.modulus. lia.
Qed.

Lemma Update_jiffies h m :
  m_lastTotalJiffies (exec (Update h) m)
  = m_lastTotalJiffies (exec (SampleCpuUsage (proc_stat h)) m)
  ∧ m_lastIdleJiffies (exec (Update h) m)
    = m_lastIdleJiffies (exec (SampleCpuUsage (proc_stat h)) m).
Proof.
  unfold Update, UpdateHardware, exec, bind, read, write.
  by destruct (SampleCpuUsage (proc_stat h) m) as [cpu m1].
Qed.

Lemma cpu_samples_deltas sts : ∀ hs previous m,
  Forall readable sts →
  map proc_stat hs = map Some sts →
  m_lastTotalJiffies m = total_jiffies previous →
  m_lastIdleJiffies m = idle_jiffies previous →
  cpu_samples hs m = loads_after previous sts.
Proof.
  induction sts as [|st sts IH]; intros hs previous m Hread Hhs Htot Hidle.
  - by destruct hs.
  - destruct hs as [|h hs]; [done|]. injection Hhs as Hh Hhs.
    pose proof (Forall_inv Hread) as Hst.
    apply Forall_inv_tail in Hread.
    rewrite cpu_samples_cons. cbn [loads_after].
    destruct (Update_jiffies h m) as [Ht Hi].
    rewrite Hh in *. unfold exec, eval in *.
    rewrite SampleCpuUsage_readable in * by done. cbn [fst snd] in *.
    f_equal.
    + unfold load_between. by rewrite Htot, Hidle.
    + by apply IH.
Qed.

Example first_sample_since_boot :
  eval (SampleCpuUsage (Some since_boot)) members_default = F32.of_Z 25.
Proof. reflexivity. Qed.

(** C7 as stated fails: the very first sampling call, made on the
    zero-initialised members, does not return 0. *)
Lemma first_sample_is_not_zero :
  ¬ (∀ stat, eval (SampleCpuUsage stat) members_default = F32.zero).
Proof.
  intros Hclaim. specialize (Hclaim (Some since_boot)).
  rewrite first_sample_since_boot in Hclaim. discriminate.
Qed.

(** C7, amended.  The very first sampling call is the constructor's priming
    call: it is computed against the zero-initialised counters, so it is the
    load since boot, and its value is dropped, the reported load staying at
    its default 0 and the history empty.  Every later call, made by
    [Update()], returns the load between the previous reading of the
    cumulative counters and the current one. *)
Theorem cpu_load_is_delta (st0 : ProcStat) (sts : list ProcStat)
    (hs : list Host) :
  readable st0 →
  Forall readable sts →
  map proc_stat hs = map Some sts →
  eval (SampleCpuUsage (Some st0)) members_default
  = load_of (total_jiffies st0) (idle_jiffies st0)
  ∧ cpuLoadPercent (m_hwStats (construct (Some st0))) = F32.zero
  ∧ m_cpuHistory (construct (Some st0)) = []
  ∧ cpu_samples hs (construct (Some st0)) = loads_after st0 sts.
Proof.
  intros Hst0 Hsts Hhs.
  assert (Hctor : construct (Some st0)
                  = set_jiffies (total_jiffies st0) (idle_jiffies st0)
                      members_default).
  { unfold construct, exec. by rewrite SampleCpuUsage_readable. }
  split_and!.
  - unfold eval. rewrite SampleCpuUsage_readable by done. cbn [fst].
    cbn [m_lastTotalJiffies m_lastIdleJiffies members_default].
    unfold total_jiffies at 1, idle_jiffies at 2.
    by rewrite !U64_sub_0.
  - by rewrite Hctor.
  - by rewrite Hctor.
  - apply cpu_samples_deltas; try done; by rewrite Hctor.
Qed.

Lemma cpu_load_is_delta_witness :
  cpu_samples [tick_with a_tick_later None None] (construct (Some since_boot))
  = [F32.of_Z 50]
  ∧ eval (SampleCpuUsage (Some since_boot)) members_default = F32.of_Z 25.
Proof.
  assert (H0 : readable since_boot) by reflexivity.
  assert (H1 : Forall readable [a_tick_later])
    by (constructor; [reflexivity|constructor]).
  assert (H2 : map proc_stat [tick_with a_tick_later None None]
               = map Some [a_tick_later]) by reflexivity.
  pose proof (cpu_load_is_delta since_boot [a_tick_later]
                [tick_with a_tick_later None None] H0 H1 H2)
    as (Hfirst & _ & _ & Hlater).
  split.
  - rewrite Hlater. vm_compute. reflexivity.
  - rewrite Hfirst. vm_compute. reflexivity.
Defined.

(** Under [_WIN32] the first call is computed against zero as well. *)
Example Win32_first_sample :
  fst (Win32.SampleCpuUsage
         (Some {| Win32.idleTime := 300; Win32.kernelTime := 350;
                  Win32.userTime := 50 |})
         Win32.members_default)
  = F32.of_Z 25.
Proof. reflexivity. Qed.

(** ** The hardware lock *)

Module HwLockFacts.
Import HwLock.

Ltac explore H :=
  lazymatch type of H with
  | schedule ?o _ = Some _ =>
      destruct o as [|[|] o]; cbn in H;
      [ injection H as <-; cbn; intros; try discriminate; auto
      | try discriminate; explore H
      | try discriminate; explore H ]
  end.

Lemma reader_copies_outside_block stats0 stats hist cpu order c :
  schedule order
    {| driver_todo := UpdateHardware_block stats cpu;
       reader_todo := GetHardwareStats_body;
       shared := initial stats0 hist |} = Some c →
  reader_todo c = [CopyStats; Unlock] →
  driver_todo c = UpdateHardware_block stats cpu ∨ driver_todo c = [].
Proof.
  intros Hrun. unfold UpdateHardware_block, GetHardwareStats_body, initial in *.
  explore Hrun.
Qed.

(** X23.  [GetHardwareStats] copies the snapshot only while the driver is
    outside its locked block: in every interleaving, when the reader holds
    the lock and is about to copy, the driver has either not begun its block
    or finished it. *)
Lemma GetHardwareStats_excludes_update stats0 stats hist cpu order c :
  schedule order
    {| driver_todo := UpdateHardware_block stats cpu;
       reader_todo := GetHardwareStats_body;
       shared := initial stats0 hist |} = Some c →
  reader_todo c = [CopyStats; Unlock] →
  driver_todo c = UpdateHardware_block stats cpu ∨ driver_todo c = [].
Proof. apply reader_copies_outside_block. Qed.






End HwLockFacts.

(** [GetCpuHistory] takes no lock: with the history at capacity, a thread
    other than the driver can use the reference while the driver is inside
    its locked block, between [erase] and [push_back], and what it sees is
    neither the history before the update nor the history after it.
    [GetHardwareStats], which does lock, is never scheduled there. *)
Theorem GetCpuHistory_observes_mid_update (stats0 stats : HardwareStats)
    (hist : list F32.t) (cpu : F32.t) :
  length hist = MaxHistory →
  let before := HwLock.initial stats0 hist in
  ¬ In HwLock.Lock HwLock.GetCpuHistory_body
  ∧ In HwLock.Lock HwLock.GetHardwareStats_body
  ∧ ∃ c,
      HwLock.schedule torn_order
        {| HwLock.driver_todo := HwLock.UpdateHardware_block stats cpu;
           HwLock.reader_todo := HwLock.GetCpuHistory_body;
           HwLock.shared := before |} = Some c
      ∧ HwLock.driver_todo c = [] ∧ HwLock.reader_todo c = []
      ∧ HwLock.cpuHistory (HwLock.shared c) = (drop 1 hist ++ [cpu])%list
      ∧ HwLock.seen (HwLock.shared c) = [HwLock.SawHistory (drop 1 hist)]
      ∧ drop 1 hist ≠ HwLock.cpuHistory before
      ∧ drop 1 hist ≠ HwLock.cpuHistory (HwLock.shared c)
      ∧ HwLock.schedule [HwLock.Driver; HwLock.Driver; HwLock.Driver;
                         HwLock.Reader]
          {| HwLock.driver_todo := HwLock.UpdateHardware_block stats cpu;
             HwLock.reader_todo := HwLock.GetHardwareStats_body;
             HwLock.shared := before |} = None.
Proof.
  intros Hlen. cbn zeta. split_and!.
  - cbn. intros [Habs|[]]. discriminate.
  - cbn. by left.
  - assert (Hfull : (MaxHistory <=? length hist)%nat = true)
      by (rewrite Hlen; apply Nat.leb_refl).
    eexists. split_and!.
    + cbn -[Nat.leb MaxHistory drop]. rewrite Hfull. reflexivity.
    + reflexivity.
    + reflexivity.
    + reflexivity.
    + reflexivity.
    + cbn. intros Heq. apply (f_equal length) in Heq.
      rewrite length_drop, Hlen in Heq. unfold MaxHistory in Heq. lia.
    + cbn. intros Heq. apply (f_equal length) in Heq.
      rewrite length_app, length_drop in Heq. cbn in Heq. lia.
    + reflexivity.
Qed.

Lemma GetCpuHistory_observes_mid_update_witness :
  let hist := repeat F32.zero 256 in
  length hist = MaxHistory
  ∧ HwLock.seen <$>
      (HwLock.shared <$>
         HwLock.schedule torn_order
           {| HwLock.driver_todo :=
                HwLock.UpdateHardware_block default_stats F32.hundred;
              HwLock.reader_todo := HwLock.GetCpuHistory_body;
              HwLock.shared := HwLock.initial default_stats hist |})
    = Some [HwLock.SawHistory (repeat F32.zero 255)].
Proof.
  cbn zeta.
  assert (Hlen : length (repeat F32.zero 256) = MaxHistory) by reflexivity.
  split; [exact Hlen|].
  destruct (GetCpuHistory_observes_mid_update default_stats default_stats
              (repeat F32.zero 256) F32.hundred Hlen)
    as (_ & _ & c & -> & _ & _ & _ & Hseen & _).
  cbn [fmap option_fmap option_map]. rewrite Hseen. reflexivity.
Defined.




(* ------------------------------------------------------------------ *)
(** * Further properties of the code *)

(** ** Lower-casing and the filter *)

Lemma tolower_tolower c : Str.tolower (Str.tolower c) = Str.tolower c.
Proof. destruct c as [[] [] [] [] [] [] [] []]; reflexivity. Qed.

Lemma map_length f s : String.length (Str.map f s) = String.length s.
Proof. induction s as [|c s IH]; cbn; [done|by rewrite IH]. Qed.

(** X1.  [toLower] is idempotent and keeps the length of the string. *)
Theorem toLower_idempotent (s : string) :
  toLower (toLower s) = toLower s
  ∧ String.length (toLower s) = String.length s.
Proof.
  unfold toLower. split; [|apply map_length].
  induction s as [|c s IH]; cbn; [done|].
  by rewrite tolower_tolower, IH.
Qed.

(** X2.  Two filters that differ only in the case of their letters select
    the same records. *)
Theorem GetProcesses_ignores_filter_case (f g : string) (m : SystemMonitor) :
  same_ignoring_case f g →
  eval (GetProcesses f) m = eval (GetProcesses g) m.
Proof.
  intros Hsame%same_ignoring_case_toLower.
  unfold GetProcesses, eval, bind, read, ret. cbn. by rewrite Hsame.
Qed.

Lemma GetProcesses_ignores_filter_case_witness :
  eval (GetProcesses "CHR")
    (set_processesCache
       [ {| pid := 123; name := "Chrome" |}; {| pid := 456; name := "bash" |} ]
       members_default)
  = eval (GetProcesses "chr")
      (set_processesCache
         [ {| pid := 123; name := "Chrome" |}; {| pid := 456; name := "bash" |} ]
         members_default).
Proof.
  apply (GetProcesses_ignores_filter_case "CHR" "chr").
  same_letters.
Defined.

Lemma Substring_trans a b c :
  Str.Substring a b → Str.Substring b c → Str.Substring a c.
Proof.
  intros (p1 & q1 & ->) (p2 & q2 & ->).
  exists (p2 ++ p1), (q1 ++ q2).
  by rewrite !StrFacts.append_assoc.
Qed.

Lemma Substring_toLower a b :
  Str.Substring a b → Str.Substring (toLower a) (toLower b).
Proof.
  intros (p & q & ->). exists (toLower p), (toLower q).
  unfold toLower. by rewrite !StrFacts.map_append.
Qed.

Lemma selected_narrowing f1 f2 p :
  Str.Substring f1 f2 → selected f2 p → selected f1 p.
Proof.
  intros Hsub [Hname|Hpid].
  - left. apply name_contains_toLower. apply name_contains_toLower in Hname.
    eapply Substring_trans; [|done]. by apply Substring_toLower.
  - right. unfold pid_contains in *. by eapply Substring_trans.
Qed.

(** X3.  Typing more never brings a record back: when the filter is
    extended (the old filter occurs in the new one), the new result is the
    old result filtered again, so it is a sub-list of it in the same
    order. *)
Theorem GetProcesses_narrowing (f1 f2 : string) (m : SystemMonitor) :
  Str.Substring f1 f2 →
  eval (GetProcesses f2) m = filter (selected f2) (eval (GetProcesses f1) m)
  ∧ eval (GetProcesses f2) m `sublist_of` eval (GetProcesses f1) m
  ∧ (length (eval (GetProcesses f2) m)
     ≤ length (eval (GetProcesses f1) m))%nat.
Proof.
  intros Hsub.
  assert (Heq : eval (GetProcesses f2) m
                = filter (selected f2) (eval (GetProcesses f1) m)).
  { rewrite !GetProcesses_eval, list_filter_filter.
    apply list_filter_iff. intros p. split; [|tauto].
    intros Hp. split; [done|]. by eapply selected_narrowing. }
  split; [done|]. rewrite Heq. split.
  - apply sublist_filter.
  - apply length_filter.
Qed.

Lemma GetProcesses_narrowing_witness :
  let m := set_processesCache
             [ {| pid := 123; name := "Chrome" |};
               {| pid := 456; name := "chronyd" |} ] members_default in
  eval (GetProcesses "chrom") m `sublist_of` eval (GetProcesses "chr") m.
Proof.
  cbn zeta.
  apply (GetProcesses_narrowing "chr" "chrom").
  by exists "", "om".
Defined.

(** X4.  A cached process is always found by its own pid written in
    decimal, by its own name, and by its name in any other case. *)
Theorem GetProcesses_finds_own (p : ProcessInfo) (m : SystemMonitor) :
  p ∈ m_processesCache m →
  p ∈ eval (GetProcesses (Str.to_string (pid p))) m
  ∧ p ∈ eval (GetProcesses (name p)) m
  ∧ ∀ f, same_ignoring_case f (name p) → p ∈ eval (GetProcesses f) m.
Proof.
  intros Hin.
  assert (Hname : ∀ f, same_ignoring_case f (name p) →
                       p ∈ eval (GetProcesses f) m).
  { intros f Hsame. rewrite GetProcesses_eval, list_elem_of_filter.
    split; [|done]. left. apply name_contains_toLower.
    apply same_ignoring_case_toLower in Hsame as ->.
    exists "", "". by rewrite StrFacts.append_empty_r. }
  split_and!; [|apply Hname|done].
  - rewrite GetProcesses_eval, list_elem_of_filter. split; [|done].
    right. exists "", "". by rewrite StrFacts.append_empty_r.
  - apply same_ignoring_case_toLower. done.
Qed.

Lemma GetProcesses_finds_own_witness :
  let p := {| pid := 456; name := "bash" |} in
  let m := set_processesCache [ {| pid := 123; name := "Chrome" |}; p ]
             members_default in
  p ∈ eval (GetProcesses "456") m ∧ p ∈ eval (GetProcesses "BASH") m.
Proof.
  cbn zeta.
  assert (Hin : {| pid := 456; name := "bash" |}
                ∈ m_processesCache
                    (set_processesCache
                       [ {| pid := 123; name := "Chrome" |};
                         {| pid := 456; name := "bash" |} ] members_default)).
  { cbn. apply list_elem_of_In. right. left. reflexivity. }
  destruct (GetProcesses_finds_own _ _ Hin) as (Hpid & _ & Hcase).
  split; [exact Hpid|].
  apply Hcase. same_letters.
Defined.

(** X5.  Right after [Update()], the empty filter returns exactly what the
    enumeration of that tick produced, whatever the cache held before. *)
Theorem GetProcesses_after_Update (h : Host) (m : SystemMonitor) :
  eval (GetProcesses "") (exec (Update h) m) = QueryProcesses (ps_buffers h).
Proof. by rewrite GetProcesses_empty_filter, Update_cache. Qed.

(** ** Reading the output of [ps] *)

Lemma decimal_value_of_uint_acc d : ∀ acc,
  decimal_value (Z.pos acc) (NilEmpty.string_of_uint d)
  = Z.pos (Pos.of_uint_acc d acc).
Proof.
  induction d as [|d IH|d IH|d IH|d IH|d IH|d IH|d IH|d IH|d IH|d IH];
    intros acc; cbn [NilEmpty.string_of_uint decimal_value Pos.of_uint_acc];
    [done|..]; rewrite <- IH; f_equal;
    unfold Str.digit_value, Str.code; cbn; lia.
Qed.

Lemma decimal_value_of_uint d :
  decimal_value 0 (NilEmpty.string_of_uint d) = Z.of_uint d.
Proof.
  unfold Z.of_uint.
  induction d as [|d IH|d IH|d IH|d IH|d IH|d IH|d IH|d IH|d IH|d IH];
    cbn [NilEmpty.string_of_uint decimal_value Pos.of_uint]; [done|done|..];
    change (10 * 0 + Str.digit_value _) with (Z.pos 1) ||
    change (10 * 0 + Str.digit_value _) with (Z.pos 2) ||
    change (10 * 0 + Str.digit_value _) with (Z.pos 3) ||
    change (10 * 0 + Str.digit_value _) with (Z.pos 4) ||
    change (10 * 0 + Str.digit_value _) with (Z.pos 5) ||
    change (10 * 0 + Str.digit_value _) with (Z.pos 6) ||
    change (10 * 0 + Str.digit_value _) with (Z.pos 7) ||
    change (10 * 0 + Str.digit_value _) with (Z.pos 8) ||
    change (10 * 0 + Str.digit_value _) with (Z.pos 9);
    apply decimal_value_of_uint_acc.
Qed.

Lemma string_of_uint_all_digits d :
  Str.forallb Str.is_digit (NilEmpty.string_of_uint d) = true.
Proof. induction d; cbn; [done|by rewrite IHd..]. Qed.

Lemma span_digits ds rest :
  Str.forallb Str.is_digit ds = true →
  no_digit_next rest →
  Str.span Str.is_digit (ds ++ rest) = (ds, rest).
Proof.
  intros Hds Hrest. induction ds as [|c ds IH]; cbn in *.
  - destruct rest as [|c rest]; [done|]. cbn in *. by rewrite Hrest.
  - apply andb_true_iff in Hds as [Hc Hds]. by rewrite Hc, IH.
Qed.

Lemma digit_not_space_or_sign c :
  Str.is_digit c = true →
  Str.isspace c = false ∧ c ≠ "-"%char ∧ c ≠ "+"%char.
Proof.
  destruct c as [[] [] [] [] [] [] [] []]; vm_compute; intros; try discriminate;
    split_and!; congruence.
Qed.

(** What [extract_int] makes of a run of digits, and of one after a minus
    sign. *)
Lemma extract_int_digits ds rest :
  Str.forallb Str.is_digit ds = true → ds ≠ "" → no_digit_next rest →
  extract_int (ds ++ rest)
  = (if I32.in_range (decimal_value 0 ds)
     then Some (decimal_value 0 ds, rest) else None)
  ∧ extract_int ("-" ++ ds ++ rest)
    = (if I32.in_range (- decimal_value 0 ds)
       then Some (- decimal_value 0 ds, rest) else None).
Proof.
  intros Hds Hne Hrest.
  pose proof (span_digits ds rest Hds Hrest) as Hspan.
  destruct ds as [|c ds]; [done|].
  cbn in Hds. apply andb_true_iff in Hds as [Hc _].
  destruct (digit_not_space_or_sign c Hc) as (Hsp & Hminus & Hplus).
  split.
  - unfold extract_int. cbn [append Str.drop_while]. rewrite Hsp.
    replace (match String c (ds ++ rest) with
             | String "-"%char r => (true, r)
             | String "+"%char r => (false, r)
             | _ => (false, String c (ds ++ rest))
             end) with (false, String c (ds ++ rest)).
    + cbn [append] in Hspan. rewrite Hspan. reflexivity.
    + clear -Hc. destruct c as [[] [] [] [] [] [] [] []];
        first [discriminate Hc | reflexivity].
  - unfold extract_int.
    change ("-" ++ String c ds ++ rest) with (String "-" (String c ds ++ rest)).
    cbn [Str.drop_while]. change (Str.isspace "-") with false. cbv iota.
    rewrite Hspan. reflexivity.
Qed.

Lemma string_of_uint_empty d : NilEmpty.string_of_uint d = "" → d = Decimal.Nil.
Proof. by destruct d. Qed.

Lemma to_string_cases z :
  (0 ≤ z ∧ ∃ ds, Str.to_string z = ds ∧ ds ≠ ""
                 ∧ Str.forallb Str.is_digit ds = true
                 ∧ decimal_value 0 ds = z)
  ∨ (z < 0 ∧ ∃ ds, Str.to_string z = "-" ++ ds ∧ ds ≠ ""
                   ∧ Str.forallb Str.is_digit ds = true
                   ∧ decimal_value 0 ds = - z).
Proof.
  pose proof (DecimalZ.of_to z) as Hround.
  unfold Str.to_string. destruct z as [|p|p].
  - left. split; [lia|]. by exists "0".
  - left. split; [lia|]. cbn in *.
    exists (NilEmpty.string_of_uint (Pos.to_uint p)).
    split; [done|]. split.
    + intros Hempty%string_of_uint_empty. rewrite Hempty in Hround. done.
    + split; [apply string_of_uint_all_digits|].
      by rewrite decimal_value_of_uint.
  - right. split; [lia|]. cbn in *.
    exists (NilEmpty.string_of_uint (Pos.to_uint p)).
    split; [done|]. split.
    + intros Hempty%string_of_uint_empty. rewrite Hempty in Hround. done.
    + split; [apply string_of_uint_all_digits|].
      rewrite decimal_value_of_uint. lia.
Qed.

Lemma extract_int_printed z rest :
  no_digit_next rest →
  extract_int (Str.to_string z ++ rest)
  = if I32.in_range z then Some (z, rest) else None.
Proof.
  intros Hrest.
  destruct (to_string_cases z) as [(Hz & ds & -> & Hne & Hds & Hval)
                                  |(Hz & ds & -> & Hne & Hds & Hval)].
  - destruct (extract_int_digits ds rest Hds Hne Hrest) as [-> _].
    by rewrite Hval.
  - destruct (extract_int_digits ds rest Hds Hne Hrest) as [_ Hneg].
    rewrite StrFacts.append_assoc, Hneg, Hval.
    by replace (- - z) with z by lia.
Qed.

(** X6.  Reading back a number that [std::to_string] printed gives the
    number when it fits an [int], and fails when it does not; the stream is
    left at the first character after the digits. *)
Theorem extract_int_to_string (z : Z) (rest : string) :
  no_digit_next rest →
  extract_int (Str.to_string z ++ rest)
  = if I32.in_range z then Some (z, rest) else None.
Proof. apply extract_int_printed. Qed.

Lemma extract_int_to_string_witness :
  extract_int (Str.to_string (-2147483648) ++ " init")
  = Some (-2147483648, " init")
  ∧ extract_int (Str.to_string 2147483648 ++ " init") = None.
Proof.
  split.
  - apply (extract_int_to_string (-2147483648) " init"). reflexivity.
  - apply (extract_int_to_string 2147483648 " init"). reflexivity.
Defined.

Lemma drop_while_pad p pad s :
  Str.forallb p pad = true →
  Str.drop_while p (pad ++ s) = Str.drop_while p s.
Proof.
  induction pad as [|c pad IH]; cbn; [done|].
  intros [Hc Hpad]%andb_true_iff. rewrite Hc. by apply IH.
Qed.

Lemma extract_int_pad pad s :
  Str.forallb Str.isspace pad = true →
  extract_int (pad ++ s) = extract_int s.
Proof. intros Hpad. unfold extract_int. by rewrite drop_while_pad. Qed.

Lemma span_until p s c rest :
  Str.forallb p s = true → p c = false →
  Str.span p (s ++ String c rest) = (s, String c rest).
Proof.
  intros Hs Hc. induction s as [|x s IH]; cbn in *.
  - by rewrite Hc.
  - apply andb_true_iff in Hs as [Hx Hs]. by rewrite Hx, IH.
Qed.

Lemma parse_ps_line pad p :
  Str.forallb Str.isspace pad = true →
  I32.in_range (pid p) = true →
  printable_name (name p) →
  parse_ps_buffer (ps_line pad p) = Some p.
Proof.
  intros Hpad Hrange [Hfirst Hline].
  unfold parse_ps_buffer, ps_line.
  rewrite extract_int_pad by done.
  rewrite extract_int_printed by reflexivity.
  rewrite Hrange. cbn [mbind option_bind].
  unfold getline.
  change (" " ++ name p ++ String newline "")
    with (String " " (name p ++ String newline "")).
  change (String " " (name p ++ String newline ""))
    with (String " " (name p) ++ String newline "").
  rewrite span_until;
    [|cbn [Str.forallb]; apply andb_true_iff; split; [reflexivity|exact Hline]
     |reflexivity].
  cbn [fst Str.drop_while]. change (Str.isspace " ") with true. cbv iota.
  destruct p as [n nm]. cbn in *.
  destruct nm as [|c nm]; [done|]. cbn. by rewrite Hfirst.
Qed.

(** X7.  A line as [ps] prints it, the pid padded with blanks, a space, the
    command, a newline, is recorded as that pid with that command, provided
    the pid fits an [int]. *)
Theorem ps_line_parsed (pad : string) (p : ProcessInfo) :
  Str.forallb Str.isspace pad = true →
  I32.in_range (pid p) = true →
  printable_name (name p) →
  parse_ps_buffer (ps_line pad p) = Some p.
Proof. apply parse_ps_line. Qed.

Lemma ps_line_parsed_witness :
  parse_ps_buffer (ps_line "   " {| pid := 4242; name := "Web Content" |})
  = Some {| pid := 4242; name := "Web Content" |}.
Proof.
  apply (ps_line_parsed "   " {| pid := 4242; name := "Web Content" |}).
  - reflexivity.
  - reflexivity.
  - split; reflexivity.
Defined.

(** X8.  Each buffer is read on its own: the records of two runs of buffers
    put end to end are the records of the first followed by those of the
    second, and there is at most one record per buffer. *)
Theorem QueryProcesses_app (bs1 bs2 : list string) :
  QueryProcesses (Some (bs1 ++ bs2)%list)
  = (QueryProcesses (Some bs1) ++ QueryProcesses (Some bs2))%list
  ∧ (length (QueryProcesses (Some bs1)) ≤ length bs1)%nat.
Proof.
  rewrite !QueryProcesses_omap. split.
  - apply omap_app.
  - induction bs1 as [|b bs1 IH]; cbn; [done|].
    destruct (parse_ps_buffer b); cbn; lia.
Qed.

Lemma not_a_number_skipped buffer :
  not_a_number buffer → parse_ps_buffer buffer = None.
Proof.
  unfold not_a_number, parse_ps_buffer, extract_int.
  destruct (Str.drop_while Str.isspace buffer) as [|c r]; [done|].
  intros (Hdigit & Hminus & Hplus).
  replace (match String c r with
           | String "-"%char r0 => (true, r0)
           | String "+"%char r0 => (false, r0)
           | _ => (false, String c r)
           end) with (false, String c r).
  - cbn. by rewrite Hdigit.
  - clear -Hminus Hplus. destruct c as [[] [] [] [] [] [] [] []];
      first [reflexivity | by destruct Hminus | by destruct Hplus].
Qed.

(** X9.  A buffer that does not start with a number (a header line, a blank
    line, the rest of a line too long for the buffer) adds no record, so
    taking it out of the input changes nothing. *)
Theorem QueryProcesses_skips_non_numbers (bs1 bs2 : list string)
    (buffer : string) :
  not_a_number buffer →
  QueryProcesses (Some (bs1 ++ buffer :: bs2)%list)
  = QueryProcesses (Some (bs1 ++ bs2)%list).
Proof.
  intros Hskip%not_a_number_skipped.
  rewrite !QueryProcesses_omap, !omap_app. cbn. by rewrite Hskip.
Qed.

Lemma QueryProcesses_skips_non_numbers_witness :
  QueryProcesses
    (Some [ ps_line " " {| pid := 1; name := "init" |};
            "  PID COMMAND" ++ String newline "";
            ps_line " " {| pid := 2; name := "sh" |} ])
  = QueryProcesses
      (Some [ ps_line " " {| pid := 1; name := "init" |};
              ps_line " " {| pid := 2; name := "sh" |} ]).
Proof.
  apply (QueryProcesses_skips_non_numbers
           [ ps_line " " {| pid := 1; name := "init" |} ]
           [ ps_line " " {| pid := 2; name := "sh" |} ]
           ("  PID COMMAND" ++ String newline "")).
  vm_compute. split; [reflexivity|]. split; discriminate.
Defined.

Lemma omap_cons_Some {A B} (f : A → option B) x y l :
  f x = Some y → omap f (x :: l) = y :: omap f l.
Proof. intros Hx. cbn. by rewrite Hx. Qed.

(** X10.  What [ps] printed is what the cache holds: for processes whose
    pid fits an [int] and whose command is printable, enumerating the lines
    printed for them gives back the same processes in the same order, and
    [Update()] puts exactly them in the cache. *)
Theorem QueryProcesses_round_trip (entries : list (string * ProcessInfo))
    (h : Host) (m : SystemMonitor) :
  Forall (λ e, Str.forallb Str.isspace (fst e) = true
               ∧ I32.in_range (pid (snd e)) = true
               ∧ printable_name (name (snd e))) entries →
  ps_buffers h = Some (map (λ e, ps_line (fst e) (snd e)) entries) →
  QueryProcesses (ps_buffers h) = map snd entries
  ∧ m_processesCache (exec (Update h) m) = map snd entries.
Proof.
  intros Hok Hps.
  assert (Hq : QueryProcesses (ps_buffers h) = map snd entries).
  { rewrite Hps, QueryProcesses_omap. clear Hps.
    induction Hok as [|[pad p] entries (Hpad & Hrange & Hname) _ IH]; [done|].
    rewrite !map_cons. cbn [fst snd].
    rewrite (omap_cons_Some _ _ p) by (by apply parse_ps_line).
    by rewrite IH. }
  split; [done|]. by rewrite Update_cache.
Qed.

Lemma QueryProcesses_round_trip_witness :
  let entries := [ ("    ", {| pid := 1; name := "systemd" |});
                   ("  ", {| pid := 812; name := "bash" |}) ] in
  let h := {| proc_stat := None; sys_info := None;
              ps_buffers := Some (map (λ e, ps_line (fst e) (snd e)) entries) |} in
  m_processesCache (exec (Update h) members_default)
  = [ {| pid := 1; name := "systemd" |}; {| pid := 812; name := "bash" |} ].
Proof.
  cbn zeta.
  apply (QueryProcesses_round_trip
           [ ("    ", {| pid := 1; name := "systemd" |});
             ("  ", {| pid := 812; name := "bash" |}) ]).
  - repeat constructor.
  - reflexivity.
Defined.

(** ** Sampling across ticks *)

Lemma SampleCpuUsage_unreadable stat m :
  unreadable stat → SampleCpuUsage stat m = (F32.zero, m).
Proof.
  unfold unreadable, SampleCpuUsage. destruct stat as [st|]; [|done].
  intros Hlabel%String.eqb_neq. by rewrite Hlabel.
Qed.

(** X11.  A tick on which [/proc/stat] cannot be read records load 0 and
    leaves the retained counters alone, so the next readable tick reports
    the load over the whole gap, against the last counters that were read. *)
Theorem unreadable_tick_keeps_baseline (bad good : Host) (st : ProcStat)
    (m : SystemMonitor) :
  unreadable (proc_stat bad) →
  proc_stat good = Some st → readable st →
  cpu_samples [bad; good] m
  = [ F32.zero;
      load_of (U64.sub (total_jiffies st) (m_lastTotalJiffies m))
              (U64.sub (idle_jiffies st) (m_lastIdleJiffies m)) ]
  ∧ m_lastTotalJiffies (exec (Update bad) m) = m_lastTotalJiffies m
  ∧ m_lastIdleJiffies (exec (Update bad) m) = m_lastIdleJiffies m.
Proof.
  intros Hbad Hgood Hst.
  destruct (Update_jiffies bad m) as [Ht Hi].
  unfold exec in Ht, Hi. rewrite SampleCpuUsage_unreadable in Ht, Hi by done.
  cbn [snd] in Ht, Hi. split; [|done].
  rewrite !cpu_samples_cons. unfold eval.
  rewrite SampleCpuUsage_unreadable by done.
  rewrite Hgood, SampleCpuUsage_readable by done. cbn [fst].
  unfold exec. by rewrite Ht, Hi.
Qed.

Lemma unreadable_tick_keeps_baseline_witness :
  cpu_samples [host_without_ps; tick_with a_tick_later None None]
    (construct (Some since_boot))
  = [F32.zero; F32.of_Z 50].
Proof.
  destruct (unreadable_tick_keeps_baseline host_without_ps
              (tick_with a_tick_later None None) a_tick_later
              (construct (Some since_boot)) I eq_refl eq_refl) as [-> _].
  reflexivity.
Defined.

Lemma U64_sub_diag a : U64.sub a a = 0.
Proof. unfold U64.sub, U64.wrap. by rewrite Z.sub_diag. Qed.

Lemma load_between_same st : load_between st st = F32.zero.
Proof. unfold load_between. by rewrite !U64_sub_diag. Qed.

(** X12.  When the counters have not moved between two readings the load is
    0 (the division by a zero difference is never made): a run of ticks that
    all read the counters the constructor read records only zeros. *)
Theorem unchanged_counters_report_zero (st : ProcStat) (h : Host) (n : nat) :
  readable st → proc_stat h = Some st →
  cpu_samples (repeat h n) (construct (Some st)) = repeat F32.zero n.
Proof.
  intros Hst Hh.
  assert (Hctor : construct (Some st)
                  = set_jiffies (total_jiffies st) (idle_jiffies st)
                      members_default).
  { unfold construct, exec. by rewrite SampleCpuUsage_readable. }
  rewrite (cpu_samples_deltas (repeat st n) (repeat h n) st);
    [|by apply Forall_forall; intros ? ->%repeat_spec
     |by rewrite !map_repeat, Hh
     |by rewrite Hctor..].
  induction n as [|n IH]; [done|].
  cbn [repeat loads_after]. by rewrite load_between_same, IH.
Qed.

Lemma unchanged_counters_report_zero_witness :
  cpu_samples (repeat (tick_with since_boot None None) 3)
    (construct (Some since_boot))
  = [F32.zero; F32.zero; F32.zero].
Proof.
  apply (unchanged_counters_report_zero since_boot
           (tick_with since_boot None None) 3); reflexivity.
Defined.

Lemma run_snoc hs h m : run (hs ++ [h]) m = exec (Update h) (run hs m).
Proof. unfold run. by rewrite fold_left_app. Qed.

(** X13.  After any [Update()] the history is not empty and its newest
    entry is the load the snapshot reports: the two accessors a frame calls
    after [Update()] agree. *)
Theorem snapshot_is_newest_history_entry (hs : list Host) (h : Host)
    (m : SystemMonitor) :
  let m' := run (hs ++ [h]) m in
  ∃ older,
    eval GetCpuHistory m'
    = (older ++ [cpuLoadPercent (eval GetHardwareStats m')])%list.
Proof.
  cbn zeta. rewrite run_snoc.
  change (eval GetCpuHistory ?x) with (m_cpuHistory x).
  change (eval GetHardwareStats ?x) with (m_hwStats x).
  rewrite Update_history, Update_reported. unfold push_sample.
  by eexists.
Qed.

(** X14.  The snapshot is replaced as a whole: on a tick where [sysinfo]
    fails the RAM figures are 0, not the figures of the tick before. *)
Theorem failed_sysinfo_zeroes_ram (h : Host) (m : SystemMonitor) :
  sys_info h = None →
  ramUsedGB (m_hwStats (exec (Update h) m)) = F32.zero
  ∧ ramTotalGB (m_hwStats (exec (Update h) m)) = F32.zero.
Proof.
  intros Hinfo.
  unfold Update, UpdateHardware, exec, bind, read, write.
  destruct (SampleCpuUsage (proc_stat h) m) as [cpu m1]; cbn.
  by rewrite Hinfo.
Qed.

Lemma failed_sysinfo_zeroes_ram_witness :
  let before :=
    exec (Update {| proc_stat := None;
                    sys_info := Some {| totalram := 16 * 2 ^ 30;
                                        freeram := 4 * 2 ^ 30;
                                        mem_unit := 1 |};
                    ps_buffers := None |}) members_default in
  ramTotalGB (m_hwStats before) = F32.of_Z 16
  ∧ ramUsedGB (m_hwStats before) = F32.of_Z 12
  ∧ ramTotalGB (m_hwStats (exec (Update host_without_ps) before)) = F32.zero.
Proof.
  cbn zeta. split; [reflexivity|]. split; [reflexivity|].
  apply (failed_sysinfo_zeroes_ram host_without_ps). reflexivity.
Defined.

Lemma Update_frame h m :
  m_weather (exec (Update h) m) = m_weather m
  ∧ m_weatherLoading (exec (Update h) m) = m_weatherLoading m
  ∧ m_weatherThreadStop (exec (Update h) m) = m_weatherThreadStop m.
Proof.
  pose proof (SampleCpuUsage_frame (proc_stat h) m)
    as (_ & _ & Hw & Hl & Hs & _).
  unfold Update, UpdateHardware, exec, bind, read, write in *.
  by destruct (SampleCpuUsage (proc_stat h) m) as [cpu m1].
Qed.

(** X15.  The driver's ticks never touch the weather side: after any
    number of [Update()] calls the reading, the loading flag and the stop
    flag are as they were. *)
Theorem Updates_keep_weather_state (hs : list Host) (m : SystemMonitor) :
  eval GetWeather (run hs m) = eval GetWeather m
  ∧ eval IsWeatherLoading (run hs m) = eval IsWeatherLoading m
  ∧ m_weatherThreadStop (run hs m) = m_weatherThreadStop m.
Proof.
  change (m_weather (run hs m) = m_weather m
          ∧ m_weatherLoading (run hs m) = m_weatherLoading m
          ∧ m_weatherThreadStop (run hs m) = m_weatherThreadStop m).
  revert m. induction hs as [|h hs IH]; intros m; [done|].
  rewrite run_cons.
  destruct (IH (exec (Update h) m)) as (-> & -> & ->).
  apply Update_frame.
Qed.

(** X16.  Under [_WIN32]: a failed [GetSystemTimes] reports 0 and keeps the
    retained times, and a call that sees the times of the call before
    reports 0. *)
Theorem Win32_unchanged_times_report_zero (t : Win32.SystemTimes)
    (c : Win32.CpuTimes) :
  Win32.SampleCpuUsage None c = (F32.zero, c)
  ∧ let c1 := snd (Win32.SampleCpuUsage (Some t) c) in
    Win32.SampleCpuUsage (Some t) c1 = (F32.zero, c1).
Proof.
  split; [done|]. cbn zeta.
  assert (Hc1 : snd (Win32.SampleCpuUsage (Some t) c)
                = {| Win32.m_lastIdleTime := U64.wrap (Win32.idleTime t);
                     Win32.m_lastKernelTime := U64.wrap (Win32.kernelTime t);
                     Win32.m_lastUserTime := U64.wrap (Win32.userTime t) |}).
  { unfold Win32.SampleCpuUsage. by destruct (_ =? 0)%Z. }
  rewrite Hc1. unfold Win32.SampleCpuUsage.
  cbn [Win32.m_lastIdleTime Win32.m_lastKernelTime Win32.m_lastUserTime].
  by rewrite !U64_sub_diag.
Qed.

(** ** Weather: the stored reading *)

Lemma I32_wrap_in_range z : I32.in_range z = true → I32.wrap z = z.
Proof.
  unfold I32.in_range, I32.wrap, I32.min_int, I32.max_int.
  intros [Hlo Hhi]%andb_true_iff.
  apply Z.leb_le in Hlo, Hhi. rewrite Z.mod_small; lia.
Qed.

(** X17.  A successful transfer whose body carries the three fields stores
    them as they are, with the summary "Code N" for weather code N (parsed
    as a signed or as an unsigned integer) and the time of the clock,
    whatever reading was held before. *)
Theorem complete_body_stored (t : Transfer) (m : SystemMonitor)
    (members cw : list (string * Json.value)) (temp wind : F64.t) (code : Z) :
  curl_handle t = true → curl_code t = CURLE_OK →
  response_json t = Some (Json.Object members) →
  Json.find "current_weather" members = Some (Json.Object cw) →
  Json.find "temperature" cw = Some (Json.NumberFloat temp) →
  Json.find "windspeed" cw = Some (Json.NumberFloat wind) →
  Json.find "weathercode" cw = Some (Json.NumberInteger code)
  ∨ Json.find "weathercode" cw = Some (Json.NumberUnsigned code) →
  I32.in_range code = true →
  eval GetWeather (exec (FetchWeatherBlocking t) m)
  = Some {| summary := "Code " ++ Str.to_string code;
            temperatureC := temp; windKph := wind;
            lastUpdated := clock_now t |}.
Proof.
  intros Hh Hc Hbody Hcw Ht Hw Hcode Hrange.
  change (eval GetWeather ?x) with (m_weather x).
  rewrite FetchWeatherBlocking_weather, Hh, Hc. cbn [andb Z.eqb CURLE_OK].
  unfold try_block. rewrite Hbody. cbn [mbind option_bind Json.contains].
  rewrite Hcw. cbn [Json.at_key]. rewrite Hcw.
  cbn [default from_option id Json.value_or]. rewrite Ht, Hw.
  destruct Hcode as [Hcode|Hcode]; rewrite Hcode;
    cbn [Json.get_double Json.get_int mbind option_bind];
    by rewrite I32_wrap_in_range.
Qed.

Lemma complete_body_stored_witness :
  eval GetWeather
    (exec (FetchWeatherBlocking clear_sky_body)
       (set_weather (Some reading_20C) members_default))
  = Some {| summary := "Code 0"; temperatureC := F64.of_Z 21;
            windKph := F64.of_Z 9; lastUpdated := 1700000000 |}.
Proof.
  exact (complete_body_stored clear_sky_body
           (set_weather (Some reading_20C) members_default)
           [ ("latitude", Json.NumberFloat (F64.of_Z 41));
             ("current_weather",
              Json.Object
                [ ("temperature", Json.NumberFloat (F64.of_Z 21));
                  ("windspeed", Json.NumberFloat (F64.of_Z 9));
                  ("weathercode", Json.NumberUnsigned 0) ]) ]
           [ ("temperature", Json.NumberFloat (F64.of_Z 21));
             ("windspeed", Json.NumberFloat (F64.of_Z 9));
             ("weathercode", Json.NumberUnsigned 0) ]
           (F64.of_Z 21) (F64.of_Z 9) 0
           eq_refl eq_refl eq_refl eq_refl eq_refl eq_refl
           (or_intror eq_refl) eq_refl).
Defined.

Lemma try_block_shape t :
  try_block t = None ∨ ∃ w, try_block t = Some (write (set_weather w)).
Proof.
  unfold try_block.
  destruct (response_json t) as [j|]; [|by left]. cbn [mbind option_bind].
  destruct (negb _); [right; by exists None|].
  destruct (Json.value_or Json.get_double _ "temperature" _); [|by left].
  cbn [mbind option_bind].
  destruct (Json.value_or Json.get_double _ "windspeed" _); [|by left].
  cbn [mbind option_bind].
  destruct (Json.value_or Json.get_int _ "weathercode" _); [|by left].
  cbn [mbind option_bind]. right. by eexists.
Qed.

Lemma FetchWeatherBlocking_shape t :
  ∃ w, ∀ m, exec (FetchWeatherBlocking t) m = set_weather w m.
Proof.
  unfold FetchWeatherBlocking.
  destruct (curl_handle t); [|by exists None].
  destruct (curl_code t =? CURLE_OK)%Z; [|by exists None]. cbn [negb].
  destruct (try_block_shape t) as [->|[w ->]]; [by exists None|by exists w].
Qed.

(** X18.  A fetch replaces the reading as a whole and touches nothing else:
    what [GetWeather()] returns after it does not depend on the monitor the
    fetch ran on, and every other member is as before. *)
Theorem fetch_replaces_reading_wholesale (t : Transfer)
    (m1 m2 : SystemMonitor) :
  eval GetWeather (exec (FetchWeatherBlocking t) m1)
  = eval GetWeather (exec (FetchWeatherBlocking t) m2)
  ∧ exec (FetchWeatherBlocking t) m1
    = set_weather (eval GetWeather (exec (FetchWeatherBlocking t) m1)) m1.
Proof.
  destruct (FetchWeatherBlocking_shape t) as [w Hw].
  by rewrite !Hw.
Qed.

(** ** The worker thread *)

Module WorkerMore.
Import Worker.

(** X19.  From construction on, in every interleaving, [IsWeatherLoading()]
    is true for as long as the worker is inside a fetch or has not yet
    cleared the flag after it. *)
Theorem loading_during_fetch (stat : option ProcStat) (tr : list event) :
  let s := run tr (start (construct stat)) in
  (worker s = Fetching ∨ worker s = AtStore) →
  eval IsWeatherLoading (monitor s) = true.
Proof.
  cbn zeta.
  destruct (WorkerFacts.run_invariant tr (start (construct stat)))
    as [Hinv _]; [done|].
  unfold in_flight_flag in Hinv.
  by intros [Hw|Hw]; rewrite Hw in Hinv.
Qed.

Lemma accepted_le_requests tr : ∀ s, (accepted tr s ≤ count_requests tr)%nat.
Proof.
  induction tr as [|e tr IH]; intros s; [done|].
  cbn [accepted]. specialize (IH (step e s)).
  destruct e; cbn [count_requests]; try lia.
  destruct (m_weatherLoading (monitor s)); lia.
Qed.

(** X20.  The worker never fetches on its own: in every interleaving from
    construction the fetches begun are at most the requests made, and none
    is begun when nobody asked. *)
Theorem no_fetch_without_request (stat : option ProcStat) (tr : list event) :
  (fetches (run tr (start (construct stat))) ≤ count_requests tr)%nat.
Proof.
  destruct (WorkerFacts.run_invariant tr (start (construct stat)))
    as [_ Hcount]; [done|].
  pose proof (accepted_le_requests tr (start (construct stat))).
  unfold pending in Hcount at 2. cbn in Hcount.
  destruct (WorkerFacts.construct_flags stat) as [Hl _].
  rewrite Hl in Hcount. lia.
Qed.

(** Under a set stop flag a step of the worker brings the exit nearer, never
    leads to the loading test, and any other event leaves the worker where
    it is. *)
Lemma stop_step e s :
  m_weatherThreadStop (monitor s) = true →
  let s' := step e s in
  m_weatherThreadStop (monitor s') = true
  ∧ (steps_to_exit (worker s')
     ≤ steps_to_exit (worker s)
       - match e with Step _ => 1 | _ => 0 end)%nat
  ∧ (fetches s' + fetch_ahead (worker s')
     ≤ fetches s + fetch_ahead (worker s))%nat.
Proof.
  intros Hstop. destruct s as [m w n]. cbn in Hstop. cbn zeta.
  destruct e as [|h|t|]; cbn [step with_monitor worker monitor fetches].
  - rewrite RequestWeatherRefresh_exec. cbn. split; [done|]. split; lia.
  - destruct (Update_frame h m) as (_ & _ & ->). split; [done|]. split; lia.
  - unfold worker_step. cbn [worker monitor fetches].
    destruct w; cbn [worker monitor fetches].
    + rewrite Hstop. cbn. split; [done|]. split; lia.
    + destruct (m_weatherLoading m); cbn; (split; [done|]); split; lia.
    + destruct (FetchWeatherBlocking_frame t m) as (_ & -> & _).
      cbn. split; [done|]. split; lia.
    + cbn. split; [done|]. split; lia.
    + cbn. split; [done|]. split; lia.
    + cbn. split; [done|]. split; lia.
  - cbn. split; [done|]. split; lia.
Qed.

(** X21.  Cooperative stop: once the stop flag is set, whatever the callers
    go on doing, the worker has left its loop after at most five more of its
    own steps, and it begins at most one more fetch on the way. *)
Theorem stop_exits_worker (s : System) (tr : list event) :
  m_weatherThreadStop (monitor s) = true →
  (5 ≤ count_steps tr)%nat →
  worker (run tr s) = Exited
  ∧ (fetches (run tr s) ≤ fetches s + 1)%nat.
Proof.
  intros Hstop Hsteps.
  assert (Hgen : ∀ tr s,
    m_weatherThreadStop (monitor s) = true →
    (steps_to_exit (worker (run tr s))
     ≤ steps_to_exit (worker s) - count_steps tr)%nat
    ∧ (fetches (run tr s) + fetch_ahead (worker (run tr s))
       ≤ fetches s + fetch_ahead (worker s))%nat).
  { clear. induction tr as [|e tr IH]; intros s Hstop.
    - cbn. split; lia.
    - rewrite WorkerFacts.worker_run_cons.
      destruct (stop_step e s Hstop) as (Hstop' & Hrank & Hfetch).
      destruct (IH (step e s) Hstop') as [Hrank' Hfetch'].
      split; [|lia]. destruct e; cbn [count_steps] in *; lia. }
  destruct (Hgen tr s Hstop) as [Hrank Hfetch]. split.
  - assert (steps_to_exit (worker s) ≤ 5)%nat by (by destruct (worker s); cbn; lia).
    destruct (worker (run tr s)); cbn in Hrank; try lia. done.
  - destruct (worker (run tr s)), (worker s); cbn in Hfetch; lia.
Qed.


Lemma idle_steps_monitor more : ∀ s,
  m_weatherLoading (monitor s) = false →
  worker s ≠ Fetching → worker s ≠ AtStore →
  monitor (run (map Step more) s) = monitor s.
Proof.
  induction more as [|t more IH]; intros s Hl Hf Hs; [done|].
  cbn [map]. rewrite WorkerFacts.worker_run_cons.
  destruct s as [m w n]. cbn in Hl, Hf, Hs |- *.
  destruct w; try done; unfold worker_step; cbn [worker monitor fetches].
  - destruct (m_weatherThreadStop m); by rewrite IH.
  - rewrite Hl. by rewrite IH.
  - by rewrite IH.
  - by rewrite IH.
Qed.

(** X22.  Request, fetch, read: after a burst of requests and the one
    refresh it causes, [GetWeather()] returns what that transfer produced,
    [IsWeatherLoading()] is false again, and the worker going on with nobody
    asking changes neither. *)
Theorem refresh_cycle_publishes_result (stat : option ProcStat)
    (n0 n1 n2 n3 : nat) (t : Transfer) (more : list Transfer) :
  let s := run (burst n0 n1 n2 n3 t more) (start (construct stat)) in
  eval GetWeather (monitor s)
  = eval GetWeather (exec (FetchWeatherBlocking t) (construct stat))
  ∧ eval IsWeatherLoading (monitor s) = false.
Proof.
  cbn zeta. unfold burst.
  destruct (WorkerFacts.construct_flags stat) as [Hl Hs].
  cbn [repeat].
  rewrite <- app_comm_cons, WorkerFacts.worker_run_cons,
    !WorkerFacts.worker_run_app, !WorkerFacts.worker_run_one.
  cbn [step].
  set (m1 := set_weatherLoading true (construct stat)).
  assert (Hs1 : with_monitor (exec RequestWeatherRefresh)
                  (start (construct stat))
                = {| monitor := m1; worker := AtWhile; fetches := 0 |}).
  { unfold with_monitor, start. cbn. by rewrite RequestWeatherRefresh_exec. }
  rewrite Hs1, (WorkerFacts.run_requests_absorbed n0) by done.
  rewrite WorkerFacts.worker_step_AtWhile by done.
  rewrite (WorkerFacts.run_requests_absorbed n1) by done.
  rewrite WorkerFacts.worker_step_AtIf by done.
  rewrite (WorkerFacts.run_requests_absorbed n2) by done.
  rewrite WorkerFacts.worker_step_Fetching.
  destruct (FetchWeatherBlocking_shape t) as [w Hw]. rewrite !Hw.
  rewrite (WorkerFacts.run_requests_absorbed n3) by done.
  rewrite WorkerFacts.worker_step_AtStore.
  by rewrite idle_steps_monitor.
Qed.

Lemma loading_during_fetch_witness :
  eval IsWeatherLoading
    (monitor (run [Request; Step timed_out; Step timed_out; Request]
                (start (construct None)))) = true.
Proof.
  apply (loading_during_fetch None
           [Request; Step timed_out; Step timed_out; Request]).
  left. reflexivity.
Defined.

Lemma stop_exits_worker_witness :
  let s := run [Request; Step timed_out; Stop] (start (construct None)) in
  let tr := [Step timed_out; Request; Step timed_out; Step timed_out;
             Step timed_out; Step timed_out] in
  worker s = AtIf ∧ worker (run tr s) = Exited ∧ fetches (run tr s) = 1%nat.
Proof.
  cbn zeta. split; [reflexivity|].
  destruct (stop_exits_worker
              (run [Request; Step timed_out; Stop] (start (construct None)))
              [Step timed_out; Request; Step timed_out; Step timed_out;
               Step timed_out; Step timed_out]) as [Hexit _].
  - reflexivity.
  - cbn. lia.
  - split; [exact Hexit|reflexivity].
Defined.


(** X26.  A request made while the worker is idle is served: with the stop
    flag clear and no fetch under way, the request followed by three steps
    of the worker begins exactly one fetch, wherever in its loop the worker
    stood. *)
Theorem request_served_within_three_steps (s : System) (t1 t2 t3 : Transfer) :
  m_weatherThreadStop (monitor s) = false →
  m_weatherLoading (monitor s) = false →
  worker s = AtWhile ∨ worker s = AtIf ∨ worker s = Sleeping →
  fetches (run [Request; Step t1; Step t2; Step t3] s) = S (fetches s).
Proof.
  intros Hstop Hload Hpc. destruct s as [m w n]. cbn in Hstop, Hload, Hpc.
  rewrite !WorkerFacts.worker_run_cons, WorkerFacts.worker_run_nil.
  set (m1 := set_weatherLoading true m).
  assert (Hreq : step Request {| monitor := m; worker := w; fetches := n |}
                 = {| monitor := m1; worker := w; fetches := n |}).
  { unfold step, with_monitor. cbn. by rewrite RequestWeatherRefresh_exec. }
  rewrite Hreq. cbn [step].
  assert (Hs1 : m_weatherThreadStop m1 = false) by done.
  assert (Hl1 : m_weatherLoading m1 = true) by done.
  destruct Hpc as [Hw|[Hw|Hw]]; subst w.
  - rewrite WorkerFacts.worker_step_AtWhile by done.
    rewrite WorkerFacts.worker_step_AtIf by done.
    by rewrite WorkerFacts.worker_step_Fetching.
  - rewrite WorkerFacts.worker_step_AtIf by done.
    rewrite WorkerFacts.worker_step_Fetching.
    by rewrite WorkerFacts.worker_step_AtStore.
  - change (worker_step t1 {| monitor := m1; worker := Sleeping; fetches := n |})
      with {| monitor := m1; worker := AtWhile; fetches := n |}.
    rewrite WorkerFacts.worker_step_AtWhile by done.
    by rewrite WorkerFacts.worker_step_AtIf.
Qed.

Lemma request_served_within_three_steps_witness :
  fetches
    (run [Request; Step timed_out; Step timed_out; Step timed_out]
       (run [Step timed_out; Step timed_out] (start (construct None))))
  = 1%nat.
Proof.
  apply (request_served_within_three_steps
           (run [Step timed_out; Step timed_out] (start (construct None)))).
  - reflexivity.
  - reflexivity.
  - right. right. reflexivity.
Defined.

End WorkerMore.

(** ** The hardware lock and the Windows termination path *)

Lemma GetHardwareStats_excludes_update_witness :
  HwLock.driver_todo <$>
    HwLock.schedule [HwLock.Driver; HwLock.Driver; HwLock.Driver;
                     HwLock.Driver; HwLock.Driver; HwLock.Reader]
      {| HwLock.driver_todo :=
           HwLock.UpdateHardware_block default_stats F32.hundred;
         HwLock.reader_todo := HwLock.GetHardwareStats_body;
         HwLock.shared := HwLock.initial default_stats [] |}
  = Some [].
Proof.
  destruct (HwLock.schedule
              [HwLock.Driver; HwLock.Driver; HwLock.Driver;
               HwLock.Driver; HwLock.Driver; HwLock.Reader]
              {| HwLock.driver_todo :=
                   HwLock.UpdateHardware_block default_stats F32.hundred;
                 HwLock.reader_todo := HwLock.GetHardwareStats_body;
                 HwLock.shared := HwLock.initial default_stats [] |})
    as [c|] eqn:Hrun; [|discriminate Hrun].
  destruct (HwLockFacts.GetHardwareStats_excludes_update _ _ _ _ _ _ Hrun)
    as [Hbefore|Hafter].
  - injection Hrun as <-. reflexivity.
  - injection Hrun as <-. discriminate Hbefore.
  - cbn. by rewrite Hafter.
Defined.

Lemma Win32_TerminateProcess_failure_witness :
  let r := Win32.TerminateProcess
             {| Win32.hProc := true; Win32.ok := false |} 4 "" members_default in
  fst (fst r) = false ∧ snd (fst r) ≠ "" ∧ snd r = members_default.
Proof.
  apply (Win32_TerminateProcess_failure
           {| Win32.hProc := true; Win32.ok := false |} 4 "" members_default).
  reflexivity.
Defined.

(** ** Gathering the response *)

Lemma substring_all s : String.substring 0 (String.length s) s = s.
Proof. induction s as [|c s IH]; cbn; [done|by rewrite IH]. Qed.

Lemma CurlWriteCallback_well_sized d response :
  well_sized d →
  CurlWriteCallback (bytes d) (unit_size d) (units d) response
  = (Z.of_nat (String.length (bytes d)), response ++ bytes d).
Proof.
  intros [Hsize Hfit]. unfold CurlWriteCallback, U64.wrap.
  rewrite Hsize, Z.mod_small by lia.
  by rewrite Nat2Z.id, substring_all.
Qed.

(** X25.  The write callback gathers the body in order: after any run of
    deliveries, each of the size libcurl announces, the response string is
    what it was followed by the delivered bytes end to end, and every call
    returned the number of bytes it was given, which is what libcurl takes
    for success. *)
Theorem gather_concatenates (ds : list Delivery) (response : string) :
  Forall well_sized ds →
  gather ds response = response ++ concat_bytes ds
  ∧ Forall (λ d, ∀ r, fst (CurlWriteCallback (bytes d) (unit_size d)
                             (units d) r)
                      = unit_size d * units d) ds.
Proof.
  intros Hds. split.
  - revert response. induction Hds as [|d ds Hd _ IH]; intros response.
    + cbn. by rewrite StrFacts.append_empty_r.
    + change (gather (d :: ds) response)
        with (gather ds (snd (CurlWriteCallback (bytes d) (unit_size d)
                                (units d) response))).
      rewrite CurlWriteCallback_well_sized by done. cbn [snd concat_bytes].
      by rewrite IH, StrFacts.append_assoc.
  - eapply List.Forall_impl; [|exact Hds]. intros d Hd r.
    rewrite CurlWriteCallback_well_sized by done. cbn. by destruct Hd as [-> _].
Qed.

Lemma gather_concatenates_witness :
  gather [ {| bytes := "{ "; unit_size := 1; units := 2 |} ;
           {| bytes := "ok }"; unit_size := 1; units := 4 |} ] ""
  = "{ ok }".
Proof.
  apply (gather_concatenates
           [ {| bytes := "{ "; unit_size := 1; units := 2 |} ;
             {| bytes := "ok }"; unit_size := 1; units := 4 |} ] "").
  repeat constructor.
Defined.

(** ** Around the process list and the fresh monitor *)

(** X27.  Whatever [kill] answers, [TerminateProcess] leaves the monitor as
    it was, so the process stays in what [GetProcesses] returns until the
    next [Update()]; on success the caller's message is not touched. *)
Theorem TerminateProcess_keeps_list (os : KillResult) (n : Z)
    (errorMessage flt : string) (m : SystemMonitor) :
  let r := TerminateProcess os n errorMessage m in
  snd r = m
  ∧ eval (GetProcesses flt) (snd r) = eval (GetProcesses flt) m
  ∧ fst (fst r) = (kill_ret os =? 0)%Z
  ∧ (kill_ret os = 0 → snd (fst r) = errorMessage).
Proof.
  cbn zeta. unfold TerminateProcess.
  destruct (kill_ret os =? 0)%Z eqn:Hret; cbn; split_and!; try done.
  intros Hzero. apply Z.eqb_neq in Hret. done.
Qed.

(** X28.  Before the first [Update()] a monitor answers with its defaults,
    whatever the priming call read: zero load and RAM, an empty history, no
    process for any filter, no weather, not loading. *)
Theorem fresh_monitor_defaults (stat : option ProcStat) (flt : string) :
  let m := construct stat in
  eval GetHardwareStats m = default_stats
  ∧ eval GetCpuHistory m = []
  ∧ eval (GetProcesses flt) m = []
  ∧ eval GetWeather m = None
  ∧ eval IsWeatherLoading m = false.
Proof.
  cbn zeta.
  pose proof (SampleCpuUsage_frame stat members_default)
    as (Hhw & Hhist & Hw & Hl & _ & Hcache).
  fold (construct stat) in Hhw, Hhist, Hw, Hl, Hcache.
  split_and!; try done.
  rewrite GetProcesses_eval, Hcache. done.
Qed.
